(** * A token-bucket rate limiter: the accounting core of [ratelimiter.go]

    The limiter keeps a floating-point token balance that is refilled
    lazily from the elapsed time, a reservation protocol that commits to a
    future instant, a cancellation that gives unused tokens back, and two
    reconfiguration entry points.  This file embeds that code and states
    its properties.

    Data are kept as the Go code has them:
    - [float64] is IEEE-754 binary64, through the executable specification
      [SpecFloat] of the standard library ([prec = 53], [emax = 1024]);
    - [int] and [time.Duration] are 64-bit signed integers, held in [Z];
    - [time.Time] is an instant counted in nanoseconds, held in [Z];
    - the mutex is left out: every method body runs under the lock, so a
      sequential run of a method is one state transformer. *)

From Stdlib Require Import ZArith Bool List Lia SpecFloat.
Import ListNotations.
Local Open Scope Z_scope.

(** ** 64-bit integers *)

Definition MaxInt64 : Z := 9223372036854775807.
Definition MinInt64 : Z := -9223372036854775808.

(** Negation of an [int] wraps around at [MinInt64]. *)
Definition int_neg (n : Z) : Z :=
  if n =? MinInt64 then MinInt64 else - n.

(** ** binary64 floating point *)

Module F64.

Definition prec : Z := 53.
Definition emax : Z := 1024.

Definition float64 : Type := spec_float.

Definition add : float64 -> float64 -> float64 := SFadd prec emax.
Definition sub : float64 -> float64 -> float64 := SFsub prec emax.
Definition mul : float64 -> float64 -> float64 := SFmul prec emax.
Definition div : float64 -> float64 -> float64 := SFdiv prec emax.
Definition neg : float64 -> float64 := SFopp.

Definition eqb : float64 -> float64 -> bool := SFeqb.
Definition ltb : float64 -> float64 -> bool := SFltb.
Definition leb : float64 -> float64 -> bool := SFleb.
(** Go's [x > y] is [y < x]. *)
Definition gtb (x y : float64) : bool := ltb y x.

Definition is_nan (x : float64) : bool :=
  match x with S754_nan => true | _ => false end.

Definition zero : float64 := S754_zero false.

(** [float64(n)] for an integer [n]: round to nearest, ties to even. *)
Definition of_int (n : Z) : float64 := binary_normalize prec emax n 0 false.

(** [math.MaxFloat64]: (2^53 - 1) * 2^971. *)
Definition MaxFloat64 : float64 := S754_finite false 9007199254740991 971.

(** The integer part of a number, towards zero; [None] for NaN and the
    infinities. *)
Definition trunc (x : float64) : option Z :=
  match x with
  | S754_zero _ => Some 0
  | S754_finite s m e =>
      let a := match e with
               | Zneg p => Z.shiftr (Zpos m) (Zpos p)
               | _ => Z.shiftl (Zpos m) e
               end in
      Some (if s then - a else a)
  | _ => None
  end.

(** [int64(x)].  Go leaves the conversion of a value that does not fit
    to the implementation; this is what amd64 does (CVTTSD2SQ gives the
    "integer indefinite" value [MinInt64]). *)
Definition to_int64 (x : float64) : Z :=
  match trunc x with
  | Some z => if (MinInt64 <=? z) && (z <=? MaxInt64) then z else MinInt64
  | None => MinInt64
  end.

End F64.

Import F64.

(** ** Package [time] of the Go standard library

    The three methods of [time.Time] and the one of [time.Duration] the
    limiter calls, as the standard library defines them. *)

(** [time.Duration]: a count of nanoseconds in an [int64]. *)
Definition Duration : Type := Z.
(** [time.Time]: an instant, in nanoseconds from a fixed origin.  Go keeps
    seconds in an [int64] of their own, so instants range much further
    than durations and [Add] does not overflow on them. *)
Definition Time : Type := Z.

Definition Nanosecond : Duration := 1.
Definition Millisecond : Duration := 1000000.
Definition Second : Duration := 1000000000.

(** [t.Before(u)] *)
Definition Before (t u : Time) : bool := t <? u.

(** [t.Add(d)] *)
Definition Add (t : Time) (d : Duration) : Time := t + d.

(** [t.Sub(u)]: the difference, or the largest (smallest) duration when
    the difference does not fit. *)
Definition Sub (t u : Time) : Duration :=
  let d := t - u in
  if MaxInt64 <? d then MaxInt64
  else if d <? MinInt64 then MinInt64
  else d.

(** [d.Seconds()]:
<<
    sec := d / Second
    nsec := d % Second
    return float64(sec) + float64(nsec)/1e9
>>
    with Go's division, which truncates towards zero. *)
Definition Seconds (d : Duration) : float64 :=
  let sec := Z.quot d Second in
  let nsec := Z.rem d Second in
  add (of_int sec) (div (of_int nsec) (of_int 1000000000)).

(** [time.Time{}], the zero instant, is the origin; [time.Unix(sec, nsec)]
    counts from 1970, which is 62135596800 seconds later. *)
Definition zeroTime : Time := 0.
Definition Unix (sec nsec : Z) : Time := (sec + 62135596800) * Second + nsec.

(** ** The clock interface

<<
    type Clock interface {
        Now() time.Time
        Sleep(d time.Duration)
    }
>>
    A clock is a value of some type [C]; [Sleep] gives the clock after the
    call.  The fake clock of the tests advances its own time by the
    duration slept. *)

Class Clock (C : Type) : Type := {
  Now : C -> Time;
  Sleep : C -> Duration -> C
}.

Record fakeClock : Type := newFakeClock { time : Time }.

#[export] Instance fakeClock_Clock : Clock fakeClock := {
  Now fc := time fc;
  Sleep fc d := newFakeClock (Add (time fc) d)
}.

(** ** Rates *)

(** [type Rate float64] *)
Definition Rate : Type := float64.

Definition InfiniteRate : Rate := MaxFloat64.

Definition InfiniteDuration : Duration := MaxInt64.

Definition Every (interval : Duration) : Rate :=
  if interval <=? 0 then InfiniteRate
  else div (of_int 1) (Seconds interval).

Definition durationFromTokens (r : Rate) (tokens : float64) : Duration :=
  if leb r zero then InfiniteDuration
  else
    let d := mul (div tokens r) (of_int Second) in
    if gtb d (of_int MaxInt64) then InfiniteDuration
    else to_int64 d.

Definition tokensFromDuration (r : Rate) (d : Duration) : float64 :=
  if leb r zero then zero
  else mul (Seconds d) r.

(** ** Reservations

    The fields of the Go struct, but for the pointer [r] to the limiter:
    the methods below take the limiter the reservation was made on. *)

Record reservation : Type := mkReservation {
  r_ok : bool;
  r_tokens : Z;
  r_timeToAct : Time;
  r_rate : Rate
}.

Definition DelayFrom (r : reservation) (t : Time) : Duration :=
  if negb (r_ok r) then InfiniteDuration
  else
    let delay := Sub (r_timeToAct r) t in
    if delay <? 0 then 0 else delay.

(** What [Wait] returns: [nil], or one of its two errors. *)
Inductive WaitError : Type :=
| ErrExceedsBurst (n burst : Z)
| ErrCannotReserve (n : Z).

Section Limiter.

Context {C : Type} `{Clock C}.

Record RateLimiter : Type := mkRateLimiter {
  rate : Rate;
  maxTokens : Z;
  tokens : float64;
  updatedAt : Time;
  eventAt : Time;
  clock : C
}.

Definition New (r : Rate) (burst : Z) (clk : C) : RateLimiter :=
  let now := Now clk in
  {| rate := r;
     maxTokens := burst;
     tokens := of_int burst;
     updatedAt := now;
     eventAt := now;
     clock := clk |}.

(** The getters [Rate()] and [Burst()]; the first is [RateOf] here, [Rate]
    being the type. *)
Definition RateOf (rl : RateLimiter) : Rate * RateLimiter := (rate rl, rl).
Definition Burst (rl : RateLimiter) : Z * RateLimiter := (maxTokens rl, rl).

Definition updateTokens (rl : RateLimiter) (t : Time) : float64 :=
  let t := if Before t (updatedAt rl) then updatedAt rl else t in
  let delta := tokensFromDuration (rate rl) (Sub t (updatedAt rl)) in
  let tokens' := add (tokens rl) delta in
  let max := of_int (maxTokens rl) in
  if gtb tokens' max then max else tokens'.

Definition tokensAt (rl : RateLimiter) (t : Time) : float64 * RateLimiter :=
  (updateTokens rl t, rl).

Definition AvailableTokens (rl : RateLimiter) : float64 * RateLimiter :=
  tokensAt rl (Now (clock rl)).

Definition reserve (rl : RateLimiter) (t : Time) (n : Z) (maxWait : Duration)
  : reservation * RateLimiter :=
  if eqb (rate rl) InfiniteRate then
    ({| r_ok := true; r_tokens := n; r_timeToAct := t; r_rate := zero |}, rl)
  else
    let tokens' := sub (updateTokens rl t) (of_int n) in
    let wait :=
      if ltb tokens' zero then durationFromTokens (rate rl) (neg tokens')
      else 0 in
    let ok := (n <=? maxTokens rl) && (wait <=? maxWait) in
    if ok then
      let timeToAct := Add t wait in
      ({| r_ok := true; r_tokens := n; r_timeToAct := timeToAct;
          r_rate := rate rl |},
       {| rate := rate rl;
          maxTokens := maxTokens rl;
          tokens := tokens';
          updatedAt := t;
          eventAt := timeToAct;
          clock := clock rl |})
    else
      ({| r_ok := false; r_tokens := n; r_timeToAct := zeroTime;
          r_rate := rate rl |}, rl).

Definition AllowN (rl : RateLimiter) (n : Z) : bool * RateLimiter :=
  let (r, rl') := reserve rl (Now (clock rl)) n 0 in
  (r_ok r, rl').

Definition Allow (rl : RateLimiter) : bool * RateLimiter := AllowN rl 1.

Definition Wait (rl : RateLimiter) (n : Z) : option WaitError * RateLimiter :=
  let t := Now (clock rl) in
  let burst := maxTokens rl in
  let rate0 := rate rl in
  if (burst <? n) && negb (eqb rate0 InfiniteRate) then
    (Some (ErrExceedsBurst n burst), rl)
  else
    let (r, rl') := reserve rl t n InfiniteDuration in
    if negb (r_ok r) then (Some (ErrCannotReserve n), rl')
    else
      let delay := DelayFrom r t in
      if 0 <? delay then
        (None,
         {| rate := rate rl';
            maxTokens := maxTokens rl';
            tokens := tokens rl';
            updatedAt := updatedAt rl';
            eventAt := eventAt rl';
            clock := Sleep (clock rl') delay |})
      else (None, rl').

Definition SetRateAt (rl : RateLimiter) (t : Time) (newRate : Rate) : RateLimiter :=
  {| rate := newRate;
     maxTokens := maxTokens rl;
     tokens := updateTokens rl t;
     updatedAt := t;
     eventAt := eventAt rl;
     clock := clock rl |}.

Definition SetRate (rl : RateLimiter) (newRate : Rate) : RateLimiter :=
  SetRateAt rl (Now (clock rl)) newRate.

(** The new burst is stored first; [updateTokens] then reads it. *)
Definition SetBurstAt (rl : RateLimiter) (t : Time) (newBurst : Z) : RateLimiter :=
  let rl1 :=
    {| rate := rate rl;
       maxTokens := newBurst;
       tokens := tokens rl;
       updatedAt := updatedAt rl;
       eventAt := eventAt rl;
       clock := clock rl |} in
  {| rate := rate rl1;
     maxTokens := maxTokens rl1;
     tokens := updateTokens rl1 t;
     updatedAt := t;
     eventAt := t;
     clock := clock rl1 |}.

Definition SetBurst (rl : RateLimiter) (newBurst : Z) : RateLimiter :=
  SetBurstAt rl (Now (clock rl)) newBurst.

(** [r.timeToAct == r.r.eventAt] compares two [time.Time] values made by
    the same [Add]; it is equality of instants here. *)
Definition CancelAt (r : reservation) (rl : RateLimiter) (t : Time) : RateLimiter :=
  if negb (r_ok r) then rl
  else if eqb (rate rl) InfiniteRate || (r_tokens r =? 0)
          || Before (r_timeToAct r) t then rl
  else
    let restore :=
      sub (of_int (r_tokens r))
          (tokensFromDuration (r_rate r) (Sub (eventAt rl) (r_timeToAct r))) in
    if leb restore zero then rl
    else
      let tokens' := add (updateTokens rl t) restore in
      let max := of_int (maxTokens rl) in
      let tokens' := if gtb tokens' max then max else tokens' in
      if r_timeToAct r =? eventAt rl then
        let prev :=
          Add (r_timeToAct r)
              (durationFromTokens (r_rate r) (of_int (int_neg (r_tokens r)))) in
        if negb (Before prev t) then
          {| rate := rate rl; maxTokens := maxTokens rl; tokens := tokens';
             updatedAt := t; eventAt := prev; clock := clock rl |}
        else
          {| rate := rate rl; maxTokens := maxTokens rl; tokens := tokens';
             updatedAt := t; eventAt := eventAt rl; clock := clock rl |}
      else
        {| rate := rate rl; maxTokens := maxTokens rl; tokens := tokens';
           updatedAt := t; eventAt := eventAt rl; clock := clock rl |}.

Definition Cancel (r : reservation) (rl : RateLimiter) : RateLimiter :=
  CancelAt r rl (Now (clock rl)).

End Limiter.

Arguments RateLimiter C : clear implicits.

(** ** Calls on a limiter

    A sequential client is a list of calls.  [ClockSleep] is the client
    calling [Sleep] on the clock it shares with the limiter, as the tests
    do; [CallReserve] and [CallCancelAt] are the package-internal
    entry points. *)

Inductive Call : Type :=
| CallAllowN (n : Z)
| CallWait (n : Z)
| CallAvailableTokens
| CallSetRate (r : Rate)
| CallSetRateAt (t : Time) (r : Rate)
| CallSetBurst (b : Z)
| CallSetBurstAt (t : Time) (b : Z)
| CallReserve (t : Time) (n : Z) (maxWait : Duration)
| CallCancelAt (r : reservation) (t : Time)
| CallCancel (r : reservation)
| ClockSleep (d : Duration).

Section Calls.

Context {C : Type} `{Clock C}.

Definition advance (rl : RateLimiter C) (d : Duration) : RateLimiter C :=
  {| rate := rate rl; maxTokens := maxTokens rl; tokens := tokens rl;
     updatedAt := updatedAt rl; eventAt := eventAt rl;
     clock := Sleep (clock rl) d |}.

Definition exec (c : Call) (rl : RateLimiter C) : RateLimiter C :=
  match c with
  | CallAllowN n => snd (AllowN rl n)
  | CallWait n => snd (Wait rl n)
  | CallAvailableTokens => snd (AvailableTokens rl)
  | CallSetRate r => SetRate rl r
  | CallSetRateAt t r => SetRateAt rl t r
  | CallSetBurst b => SetBurst rl b
  | CallSetBurstAt t b => SetBurstAt rl t b
  | CallReserve t n maxWait => snd (reserve rl t n maxWait)
  | CallCancelAt r t => CancelAt r rl t
  | CallCancel r => Cancel r rl
  | ClockSleep d => advance rl d
  end.

Definition run (cs : list Call) (rl : RateLimiter C) : RateLimiter C :=
  fold_left (fun s c => exec c s) cs rl.

(** The states a limiter can be in: made by [New], then any calls. *)
Definition reachable (rl : RateLimiter C) : Prop :=
  exists (r : Rate) (burst : Z) (clk : C) (cs : list Call),
    rl = run cs (New r burst clk).

(** The instant a call hands to the ledger, when it hands one. *)
Definition call_instant (c : Call) (rl : RateLimiter C) : option Time :=
  match c with
  | CallAllowN _ | CallWait _ | CallSetRate _ | CallSetBurst _ | CallCancel _ =>
      Some (Now (clock rl))
  | CallSetRateAt t _ | CallSetBurstAt t _ | CallReserve t _ _ | CallCancelAt _ t =>
      Some t
  | CallAvailableTokens | ClockSleep _ => None
  end.

(** The reconfiguration of the burst as the specification words it: the
    balance is projected to [t] under the configuration before the call,
    then the new burst is installed and the balance clamped to it. *)
Definition SetBurstAt_projecting_first (rl : RateLimiter C) (t : Time) (newBurst : Z)
  : RateLimiter C :=
  let projected := updateTokens rl t in
  let max := of_int newBurst in
  {| rate := rate rl;
     maxTokens := newBurst;
     tokens := if gtb projected max then max else projected;
     updatedAt := t;
     eventAt := t;
     clock := clock rl |}.

End Calls.

(** ** Quantities of the reservation protocol *)

Section ReservationTerms.

Context {C : Type} `{Clock C}.

(** The projected balance at [t] less the [n] tokens asked for. *)
Definition balance_after (rl : RateLimiter C) (t : Time) (n : Z) : float64 :=
  sub (updateTokens rl t) (of_int n).

(** The delay [reserve] computes for [n] tokens at [t]. *)
Definition wait_for (rl : RateLimiter C) (t : Time) (n : Z) : Duration :=
  if ltb (balance_after rl t n) zero
  then durationFromTokens (rate rl) (neg (balance_after rl t n))
  else 0.

End ReservationTerms.

(** ** Limiters used as examples *)

(** The clock the tests start from, [time.Unix(0, 0)]. *)
Definition start : fakeClock := newFakeClock (Unix 0 0).

(** A limiter of the tests with nothing left: rate 10 per second, burst 2,
    both tokens taken. *)
Definition drained : RateLimiter fakeClock :=
  snd (AllowN (New (Every (100 * Millisecond)) 2 start) 2).

(** ** Sleeping

    [Wait] calls [Sleep] only for a positive delay. *)

Definition sleep_if_positive {C : Type} `{Clock C} (rl : RateLimiter C) (delay : Duration)
  : RateLimiter C :=
  if 0 <? delay then advance rl delay else rl.

(** ** Signs of binary64 values *)

(** [x] is a zero, a finite number or an infinity whose sign bit is [s]. *)
Definition signed (s : bool) (x : float64) : Prop :=
  match x with
  | S754_zero s' | S754_infinity s' | S754_finite s' _ _ => s' = s
  | S754_nan => False
  end.

(** [x] is a number that is not below zero. *)
Definition nonneg (x : float64) : Prop :=
  match x with
  | S754_zero _ | S754_infinity false | S754_finite false _ _ => True
  | _ => False
  end.


(** [x] is a zero or a finite number. *)
Definition finite (x : float64) : Prop :=
  match x with
  | S754_zero _ | S754_finite _ _ _ => True
  | _ => False
  end.

(** ** Quantities of the cancellation *)

Section CancellationTerms.

Context {C : Type} `{Clock C}.

(** What a cancellation gives back: the tokens reserved, less those the
    reservation's rate makes between its [timeToAct] and [eventAt]. *)
Definition restore_of (r : reservation) (rl : RateLimiter C) : float64 :=
  sub (of_int (r_tokens r))
      (tokensFromDuration (r_rate r) (Sub (eventAt rl) (r_timeToAct r))).

(** The balance a cancellation at [t] commits: the projection at [t] plus
    the restored tokens, at most the burst. *)
Definition restored_balance (r : reservation) (rl : RateLimiter C) (t : Time) : float64 :=
  let sum := add (updateTokens rl t) (restore_of r rl) in
  if gtb sum (of_int (maxTokens rl)) then of_int (maxTokens rl) else sum.

(** The event horizon without this reservation: its [timeToAct] moved by
    the duration of minus its tokens at its rate. *)
Definition previous_event (r : reservation) : Time :=
  Add (r_timeToAct r)
      (durationFromTokens (r_rate r) (of_int (int_neg (r_tokens r)))).

(** The conditions under which [CancelAt] returns at once. *)
Definition cancel_is_noop (r : reservation) (rl : RateLimiter C) (t : Time) : bool :=
  negb (r_ok r)
  || (r_tokens r =? 0)
  || Before (r_timeToAct r) t
  || eqb (rate rl) InfiniteRate
  || leb (restore_of r rl) zero.

End CancellationTerms.

(** ** A cancellation after a change of rate *)

(** A limiter at the unlimited rate, a reservation of 3 tokens made on it
    (the rate it records is the zero value), and the limiter once its rate
    has been set to 10 per second. *)
Definition unlimited : RateLimiter fakeClock := New InfiniteRate 5 start.



(** A reservation that has to wait, on the drained limiter. *)
Definition late_reservation : reservation :=
  fst (reserve drained (Unix 0 0) 1 InfiniteDuration).

Definition indebted : RateLimiter fakeClock :=
  snd (reserve drained (Unix 0 0) 1 InfiniteDuration).

(** ** A limiter left idle

    Rate 1 per second, burst 1, full at [time.Unix(0, 0)]; the clock reads
    ten seconds later. *)
Definition idle : RateLimiter fakeClock :=
  advance (New (Every Second) 1 start) (10 * Second).

(** ** A limiter in debt

    Rate 3 per second, burst 1, after two calls of [Wait(1)] on the fake
    clock.  The second call waits for a third of a second, cut to whole
    nanoseconds, and the clock has slept exactly that long. *)
Definition waited_twice : RateLimiter fakeClock :=
  run [CallWait 1; CallWait 1] (New (of_int 3) 1 start).

(** ** Further quantities *)

Section CommitTerms.

Context {C : Type} `{Clock C}.

(** The limiter as a granted [reserve t n] at a finite rate leaves it. *)
Definition committed (rl : RateLimiter C) (t : Time) (n : Z) : RateLimiter C :=
  {| rate := rate rl;
     maxTokens := maxTokens rl;
     tokens := balance_after rl t n;
     updatedAt := t;
     eventAt := Add t (wait_for rl t n);
     clock := clock rl |}.

End CommitTerms.

(** The calls that set the rate, and those that set the burst. *)
Definition sets_rate (c : Call) : bool :=
  match c with
  | CallSetRate _ | CallSetRateAt _ _ => true
  | _ => false
  end.

Definition sets_burst (c : Call) : bool :=
  match c with
  | CallSetBurst _ | CallSetBurstAt _ _ => true
  | _ => false
  end.

(** ** Whole numbers in binary64

    A positive integer of at most 53 bits is held exactly: its bits moved
    up to fill the 53 of the mantissa, with the exponent that undoes the
    move. *)

(** [k * 2^z], for [z] not negative. *)
Definition shl (k : positive) (z : Z) : positive :=
  match z with
  | Zpos p => Pos.iter xO k p
  | _ => k
  end.

Definition canon (s : bool) (k : positive) : float64 :=
  S754_finite s (shl k (53 - Zpos (Pos.size k))) (Zpos (Pos.size k) - 53).

(** The integers binary64 holds exactly, as far as this file needs them. *)
Definition small (n : Z) : Prop := - 2 ^ 53 < n < 2 ^ 53.

(** ** A ledger of whole tokens

    The limiter holds [j] whole tokens, with no time to account for at
    [t]: its balance is [float64(j)], within its burst; burst and [j] are
    integers binary64 holds exactly; the rate is a finite number other
    than the unlimited sentinel; [t] is not after [updatedAt]. *)
Definition whole_at {C : Type} `{Clock C} (rl : RateLimiter C) (j : Z) (t : Time) : Prop :=
  tokens rl = of_int j
  /\ small j
  /\ j <= maxTokens rl
  /\ small (maxTokens rl)
  /\ finite (rate rl)
  /\ eqb (rate rl) InfiniteRate = false
  /\ t <= updatedAt rl.

(** [k] calls of [Allow] in a row, with their answers. *)
Fixpoint allows {C : Type} `{Clock C} (k : nat) (rl : RateLimiter C)
  : list bool * RateLimiter C :=
  match k with
  | O => ([], rl)
  | S k' =>
      let (a, rl1) := Allow rl in
      let (l, rl2) := allows k' rl1 in
      (a :: l, rl2)
  end.

(** The ledger with another balance, stamped [t]. *)
Definition restamped {C : Type} `{Clock C} (rl : RateLimiter C) (x : float64) (t : Time)
  : RateLimiter C :=
  {| rate := rate rl; maxTokens := maxTokens rl; tokens := x;
     updatedAt := t; eventAt := t; clock := clock rl |}.

(** ** A limiter of the tests, full: rate 10 per second, burst 5 *)
Definition full5 : RateLimiter fakeClock := New (Every (100 * Millisecond)) 5 start.

(** ** The scenarios of [ratelimiter_test.go], run on the fake clock *)

Module Scenarios.

(** [TestAllow] *)
Example TestAllow :
  let rl0 := New (Every (100 * Millisecond)) 2 start in
  let (a1, rl1) := Allow rl0 in
  let (a2, rl2) := Allow rl1 in
  let (a3, rl3) := Allow rl2 in
  let (a4, _) := Allow (advance rl3 (100 * Millisecond)) in
  (a1, a2, a3, a4) = (true, true, false, true).
Proof. vm_compute. reflexivity. Qed.

(** [TestAllowN] *)
Example TestAllowN :
  let rl0 := New (Every (200 * Millisecond)) 3 start in
  let (a1, rl1) := AllowN rl0 3 in
  let (a2, rl2) := AllowN rl1 1 in
  let (a3, _) := AllowN (advance rl2 (600 * Millisecond)) 3 in
  (a1, a2, a3) = (true, false, true).
Proof. vm_compute. reflexivity. Qed.

(** [TestSetBurst] *)
Example TestSetBurst :
  let rl0 := New (Every (100 * Millisecond)) 1 start in
  let (a1, rl1) := Allow rl0 in
  let (a2, rl2) := Allow rl1 in
  let rl3 := advance (SetBurst rl2 5) (500 * Millisecond) in
  let (b1, rl4) := Allow rl3 in
  let (b2, rl5) := Allow rl4 in
  let (b3, rl6) := Allow rl5 in
  let (b4, rl7) := Allow rl6 in
  let (b5, _) := Allow rl7 in
  (a1, a2, [b1; b2; b3; b4; b5]) = (true, false, [true; true; true; true; true]).
Proof. vm_compute. reflexivity. Qed.

(** [TestWait] *)
Example TestWait :
  let rl0 := New (Every (100 * Millisecond)) 2 start in
  let (e1, rl1) := Wait rl0 2 in
  let (e2, rl2) := Wait rl1 3 in
  e1 = None /\ e2 = Some (ErrExceedsBurst 3 2) /\ rl2 = rl1.
Proof. vm_compute. auto. Qed.

(** [TestTokensAndAdvance] *)
Example TestTokensAndAdvance :
  let rl0 := New (Every (100 * Millisecond)) 3 start in
  let (v0, _) := AvailableTokens rl0 in
  let (_, rl1) := AllowN rl0 2 in
  let (v1, _) := AvailableTokens rl1 in
  let (v2, _) := AvailableTokens (advance rl1 (200 * Millisecond)) in
  v0 = of_int 3 /\ v1 = of_int 1 /\ v2 = of_int 3.
Proof. vm_compute. auto. Qed.

(** [TestInfRate] *)
Example TestInfRate :
  fst (AllowN (New InfiniteRate 100 start) 100000) = true.
Proof. vm_compute. reflexivity. Qed.

(** Reserving one token and cancelling at the same instant, on a full
    limiter: the limiter is as before. *)
Example round_trip_exact :
  let rl := New (Every (100 * Millisecond)) 2 start in
  let (r, rl') := reserve rl (Unix 0 0) 1 InfiniteDuration in
  CancelAt r rl' (Unix 0 0) = rl.
Proof. vm_compute. reflexivity. Qed.

(** The same a millisecond after the limiter was drained, at 3 tokens per
    second: the balance comes back six units in the last place away from
    where it was, (0.003 - 1) + 1 rounded twice. *)
Example round_trip_rounded :
  let rl := advance (snd (AllowN (New (of_int 3) 2 start) 2)) Millisecond in
  let t := Now (clock rl) in
  let (r, rl') := reserve rl t 1 InfiniteDuration in
  fst (AvailableTokens rl) = S754_finite false 6917529027641082 (-61)
  /\ fst (AvailableTokens (CancelAt r rl' t)) = S754_finite false 6917529027641088 (-61).
Proof. vm_compute. split; reflexivity. Qed.

(** At two tokens per nanosecond the wait for one missing token is cut to
    0 ns: with burst 1, a second [Allow] at the same instant is granted
    on the empty bucket, and only the third is refused. *)
Example fast_rate_admits_on_empty :
  fst (allows 3 (New (of_int 2000000000) 1 start)) = [true; true; false].
Proof. vm_compute. reflexivity. Qed.

(** [TestSetRate]: five tokens taken, a sixth refused, one more after
    200 ms; then at the doubled rate, 400 ms later, four of five calls
    are allowed (the test asks for three at least). *)
Example TestSetRate :
  let rl0 := New (Every (200 * Millisecond)) 5 start in
  let (first, rl1) := allows 6 rl0 in
  let (a, rl2) := Allow (advance rl1 (200 * Millisecond)) in
  let rl3 := advance (SetRate rl2 (Every (100 * Millisecond))) (400 * Millisecond) in
  (first, a, fst (allows 5 rl3))
  = ([true; true; true; true; true; false], true, [true; true; true; true; false]).
Proof. vm_compute. reflexivity. Qed.

End Scenarios.


(** ** Facts on binary64 comparison and rounding *)

Section FloatOrder.

Lemma SFcompare_antisym (x y : float64) :
  SFcompare y x = option_map CompOpp (SFcompare x y).
Proof.
  destruct x as [sx|sx| |sx mx ex], y as [sy|sy| |sy my ey]; simpl;
    try reflexivity; try (destruct sx; reflexivity); try (destruct sy; reflexivity);
    try (destruct sx, sy; reflexivity).
  destruct sx, sy; simpl; try reflexivity;
    rewrite (Z.compare_antisym ex ey); destruct (ex ?= ey); simpl; try reflexivity;
    rewrite ?(Pos.compare_cont_antisym mx my Eq); simpl; reflexivity.
Qed.

Lemma SFcompare_none (x y : float64) :
  SFcompare x y = None <-> is_nan x = true \/ is_nan y = true.
Proof.
  destruct x as [sx|sx| |sx mx ex], y as [sy|sy| |sy my ey]; simpl;
    split; intros Hc; try discriminate; auto;
    try (destruct Hc; discriminate).
Qed.

Lemma ltb_irrefl (x : float64) : ltb x x = false.
Proof.
  unfold ltb, SFltb.
  pose proof (SFcompare_antisym x x) as Ha.
  destruct (SFcompare x x) as [[ | | ]|]; simpl in Ha; try reflexivity; discriminate.
Qed.


Lemma not_gtb_leb (x y : float64) :
  is_nan x = false -> is_nan y = false -> gtb x y = false -> leb x y = true.
Proof.
  intros Hx Hy. unfold leb, gtb, ltb, SFleb, SFltb. rewrite (SFcompare_antisym x y).
  destruct (SFcompare x y) as [[ | | ]|] eqn:Hc; simpl; intros Hl;
    try reflexivity; try discriminate.
  apply SFcompare_none in Hc. destruct Hc; congruence.
Qed.

End FloatOrder.

Section Rounding.

Lemma shr_1_nonneg (mrs : shr_record) : 0 <= shr_m mrs -> 0 <= shr_m (shr_1 mrs).
Proof.
  destruct mrs as [m r s]. simpl. intros Hm.
  destruct m as [|[p|p|]|[p|p|]]; simpl; lia.
Qed.

Lemma iter_shr_1_nonneg (p : positive) :
  forall mrs, 0 <= shr_m mrs -> 0 <= shr_m (iter_pos shr_1 p mrs).
Proof.
  induction p as [p IH|p IH|]; simpl; intros mrs Hm.
  - apply IH, IH, shr_1_nonneg, Hm.
  - apply IH, IH, Hm.
  - apply shr_1_nonneg, Hm.
Qed.

Lemma shr_nonneg (mrs : shr_record) (e n : Z) :
  0 <= shr_m mrs -> 0 <= shr_m (fst (shr mrs e n)).
Proof.
  intros Hm. destruct n; simpl; try assumption.
  apply iter_shr_1_nonneg, Hm.
Qed.

Lemma shr_record_of_loc_m (m : Z) (l : location) : shr_m (shr_record_of_loc m l) = m.
Proof. destruct l as [|[ | | ]]; reflexivity. Qed.

Lemma shr_fexp_nonneg (m e : Z) (l : location) :
  0 <= m -> 0 <= shr_m (fst (shr_fexp prec emax m e l)).
Proof.
  intros Hm. unfold shr_fexp. apply shr_nonneg.
  rewrite shr_record_of_loc_m. exact Hm.
Qed.

Lemma round_nearest_even_nonneg (m : Z) (l : location) :
  0 <= m -> 0 <= round_nearest_even m l.
Proof.
  intros Hm. destruct l as [|[ | | ]]; simpl; try lia.
  destruct (Z.even m); lia.
Qed.

Lemma binary_round_aux_not_nan (sx : bool) (mx ex : Z) (lx : location) :
  0 <= mx -> is_nan (binary_round_aux prec emax sx mx ex lx) = false.
Proof.
  intros Hm. unfold binary_round_aux.
  pose proof (shr_fexp_nonneg mx ex lx Hm) as H1.
  destruct (shr_fexp prec emax mx ex lx) as [mrs' e']. simpl in H1.
  pose proof (shr_fexp_nonneg _ e' loc_Exact
                (round_nearest_even_nonneg _ (loc_of_shr_record mrs') H1)) as H2.
  destruct (shr_fexp prec emax _ e' loc_Exact) as [mrs'' e'']. simpl in H2.
  destruct (shr_m mrs'') as [|m|m]; try reflexivity.
  - destruct (e'' <=? emax - prec); reflexivity.
  - lia.
Qed.

Lemma binary_round_not_nan (sx : bool) (mx : positive) (ex : Z) :
  is_nan (binary_round prec emax sx mx ex) = false.
Proof.
  unfold binary_round.
  destruct (shl_align mx ex _) as [mz ez].
  apply binary_round_aux_not_nan. lia.
Qed.

Lemma of_int_not_nan (n : Z) : is_nan (of_int n) = false.
Proof.
  unfold of_int, binary_normalize.
  destruct n; [reflexivity | apply binary_round_not_nan ..].
Qed.

End Rounding.

Lemma to_int64_range (x : float64) : MinInt64 <= to_int64 x <= MaxInt64.
Proof.
  unfold to_int64.
  destruct (trunc x) as [z|]; [|unfold MinInt64, MaxInt64; lia].
  destruct ((MinInt64 <=? z) && (z <=? MaxInt64)) eqn:Hr.
  - apply andb_true_iff in Hr. lia.
  - unfold MinInt64, MaxInt64; lia.
Qed.

Lemma durationFromTokens_range (r : Rate) (x : float64) :
  MinInt64 <= durationFromTokens r x <= InfiniteDuration.
Proof.
  unfold durationFromTokens, InfiniteDuration.
  destruct (leb r zero); [unfold MinInt64, MaxInt64; lia|].
  destruct (gtb _ _); [unfold MinInt64, MaxInt64; lia|].
  apply to_int64_range.
Qed.

(** ** Signs of the results of binary64 operations *)

Section Signs.

Lemma binary_round_aux_signed (sx : bool) (mx ex : Z) (lx : location) :
  0 <= mx -> signed sx (binary_round_aux prec emax sx mx ex lx).
Proof.
  intros Hm. unfold binary_round_aux.
  pose proof (shr_fexp_nonneg mx ex lx Hm) as H1.
  destruct (shr_fexp prec emax mx ex lx) as [mrs' e']. simpl in H1.
  pose proof (shr_fexp_nonneg _ e' loc_Exact
                (round_nearest_even_nonneg _ (loc_of_shr_record mrs') H1)) as H2.
  destruct (shr_fexp prec emax _ e' loc_Exact) as [mrs'' e'']. simpl in H2.
  destruct (shr_m mrs'') as [|m|m]; simpl; try reflexivity.
  - destruct (_ <=? _); simpl; reflexivity.
  - lia.
Qed.

Lemma binary_round_signed (sx : bool) (mx : positive) (ex : Z) :
  signed sx (binary_round prec emax sx mx ex).
Proof.
  unfold binary_round. destruct (shl_align mx ex _) as [mz ez].
  apply binary_round_aux_signed. lia.
Qed.

Lemma binary_normalize_signed (m e : Z) :
  signed (m <? 0) (binary_normalize prec emax m e false).
Proof.
  destruct m; simpl; [reflexivity | apply binary_round_signed ..].
Qed.

Lemma signed_false_nonneg (x : float64) : signed false x -> nonneg x.
Proof. destruct x as [s|s| |s m e]; simpl; intros Hs; subst; auto. Qed.


Lemma of_int_nonneg (n : Z) : 0 <= n -> nonneg (of_int n).
Proof.
  intros Hn. apply signed_false_nonneg.
  pose proof (binary_normalize_signed n 0) as Hs.
  replace (n <? 0) with false in Hs by (symmetry; apply Z.ltb_ge; lia).
  exact Hs.
Qed.


Lemma nonneg_leb_zero (x : float64) : nonneg x <-> leb zero x = true.
Proof.
  destruct x as [[]|[]| |[] m e]; simpl; split; intros Hx;
    try exact I; try reflexivity; try discriminate; try contradiction.
Qed.

(** A rate that passes the guard [r <= 0] of the two conversions is NaN
    or above zero. *)
Lemma not_leb_zero (r : float64) :
  leb r zero = false ->
  match r with
  | S754_nan | S754_infinity false | S754_finite false _ _ => True
  | _ => False
  end.
Proof.
  destruct r as [[]|[]| |[] m e]; simpl; intros Hr; try exact I; discriminate.
Qed.

Lemma div_eucl_quot_nonneg (a b : Z) :
  0 <= a -> 0 < b -> 0 <= fst (Z.div_eucl a b).
Proof.
  intros Ha Hb. pose proof (Z.div_pos a b Ha Hb) as Hq.
  unfold Z.div in Hq. destruct (Z.div_eucl a b). exact Hq.
Qed.

Lemma div_finite_signed (sx sy : bool) (mx my : positive) (ex ey : Z) :
  signed (xorb sx sy) (div (S754_finite sx mx ex) (S754_finite sy my ey)).
Proof.
  unfold div, SFdiv, SFdiv_core_binary.
  set (e' := Z.min _ _). set (m' := match _ with Zpos _ => _ | Z0 => _ | Zneg _ => _ end).
  assert (Hm : 0 <= m').
  { subst m'. destruct (ex - ey - e'); try lia. apply Z.shiftl_nonneg. lia. }
  pose proof (div_eucl_quot_nonneg m' (Zpos my) Hm ltac:(lia)) as Hq.
  destruct (Z.div_eucl m' (Zpos my)) as [q r]. simpl in Hq.
  apply binary_round_aux_signed. exact Hq.
Qed.

Lemma mul_finite_signed (sx sy : bool) (mx my : positive) (ex ey : Z) :
  signed (xorb sx sy) (mul (S754_finite sx mx ex) (S754_finite sy my ey)).
Proof. unfold mul, SFmul. apply binary_round_aux_signed. lia. Qed.

End Signs.

Section SignsOfConversions.








Lemma add_nonneg (x y : float64) : nonneg x -> nonneg y -> nonneg (add x y).
Proof.
  intros Hx Hy.
  destruct x as [sx|[]| |[] mx ex]; try contradiction;
    destruct y as [sy|[]| |[] my ey]; try contradiction; try exact I.
  - destruct sx, sy; exact I.
  - apply signed_false_nonneg. unfold add, SFadd. simpl cond_Zopp.
    set (m := (_ + _)%Z).
    assert (Hm : (m <? 0) = false) by (apply Z.ltb_ge; subst m; lia).
    rewrite <- Hm. apply binary_normalize_signed.
Qed.

Lemma div_nonneg (x : float64) (my : positive) (ey : Z) :
  nonneg x -> nonneg (div x (S754_finite false my ey)).
Proof.
  intros Hx. destruct x as [sx|[]| |[] mx ex]; try contradiction; try exact I.
  apply signed_false_nonneg. apply (div_finite_signed false false).
Qed.

Lemma mul_nonneg (x : float64) (my : positive) (ey : Z) :
  nonneg x -> nonneg (mul x (S754_finite false my ey)).
Proof.
  intros Hx. destruct x as [sx|[]| |[] mx ex]; try contradiction; try exact I.
  apply signed_false_nonneg. apply (mul_finite_signed false false).
Qed.

Lemma of_int_1e9 : of_int 1000000000 = S754_finite false 8388608000000000 (-23).
Proof. vm_compute. reflexivity. Qed.

Lemma Seconds_nonneg (d : Duration) : 0 <= d -> nonneg (Seconds d).
Proof.
  intros Hd. unfold Seconds. rewrite of_int_1e9.
  apply add_nonneg.
  - apply of_int_nonneg. apply Z.quot_pos; unfold Second; lia.
  - apply div_nonneg, of_int_nonneg. apply Z.rem_nonneg; unfold Second; lia.
Qed.

Lemma Sub_nonneg (t u : Time) : u <= t -> 0 <= Sub t u.
Proof.
  intros Hu. unfold Sub.
  destruct (MaxInt64 <? t - u); [unfold MaxInt64; lia|].
  destruct (t - u <? MinInt64) eqn:Hm; [|lia].
  apply Z.ltb_lt in Hm. unfold MinInt64 in Hm. lia.
Qed.

(** Tokens made over a duration that is not negative, at a rate that is a
    finite number, are not negative. *)
Lemma tokensFromDuration_nonneg (r : Rate) (d : Duration) :
  finite r -> 0 <= d -> nonneg (tokensFromDuration r d).
Proof.
  intros Hf Hd. unfold tokensFromDuration.
  destruct (leb r zero) eqn:Hr; [exact I|].
  apply not_leb_zero in Hr.
  destruct r as [[]|[]| |[] mr er]; try contradiction.
  apply mul_nonneg, Seconds_nonneg, Hd.
Qed.

End SignsOfConversions.

(** ** The reservation protocol *)

Section Reservation.

Context {C : Type} `{Clock C}.

Lemma reserve_unlimited (rl : RateLimiter C) (t : Time) (n : Z) (maxWait : Duration) :
  eqb (rate rl) InfiniteRate = true ->
  reserve rl t n maxWait =
    ({| r_ok := true; r_tokens := n; r_timeToAct := t; r_rate := zero |}, rl).
Proof. intros Hr. unfold reserve. rewrite Hr. reflexivity. Qed.

Lemma reserve_ok_finite (rl : RateLimiter C) (t : Time) (n : Z) (maxWait : Duration) :
  eqb (rate rl) InfiniteRate = false ->
  r_ok (fst (reserve rl t n maxWait))
  = (n <=? maxTokens rl) && (wait_for rl t n <=? maxWait).
Proof.
  intros Hr. unfold reserve, wait_for, balance_after. rewrite Hr.
  destruct ((n <=? maxTokens rl) && _); reflexivity.
Qed.

Lemma reserve_granted_finite (rl : RateLimiter C) (t : Time) (n : Z) (maxWait : Duration) :
  eqb (rate rl) InfiniteRate = false ->
  r_ok (fst (reserve rl t n maxWait)) = true ->
  reserve rl t n maxWait =
    ({| r_ok := true; r_tokens := n;
        r_timeToAct := Add t (wait_for rl t n); r_rate := rate rl |},
     {| rate := rate rl; maxTokens := maxTokens rl;
        tokens := balance_after rl t n; updatedAt := t;
        eventAt := Add t (wait_for rl t n); clock := clock rl |}).
Proof.
  intros Hr. unfold reserve, wait_for, balance_after. rewrite Hr.
  destruct ((n <=? maxTokens rl) && _); simpl; [reflexivity | discriminate].
Qed.

Lemma reserve_refused (rl : RateLimiter C) (t : Time) (n : Z) (maxWait : Duration) :
  r_ok (fst (reserve rl t n maxWait)) = false ->
  reserve rl t n maxWait =
    ({| r_ok := false; r_tokens := n; r_timeToAct := zeroTime; r_rate := rate rl |}, rl).
Proof.
  unfold reserve. destruct (eqb (rate rl) InfiniteRate); [discriminate|].
  destruct ((n <=? maxTokens rl) && _); simpl; [discriminate | reflexivity].
Qed.

Lemma wait_for_le_infinite (rl : RateLimiter C) (t : Time) (n : Z) :
  wait_for rl t n <= InfiniteDuration.
Proof.
  unfold wait_for. destruct (ltb _ zero).
  - apply durationFromTokens_range.
  - unfold InfiniteDuration, MaxInt64. lia.
Qed.

End Reservation.

(** ** The reservation protocol: admission *)



(** ** The reservation protocol: refusal *)

(** C3.  When [reserve t n maxWait] refuses, the reservation returned has
    [ok = false] and the limiter is returned as it was: rate, burst,
    balance, [updatedAt] and [eventAt] all keep their values.  The same
    holds of [AllowN n] when it answers [false]. *)
Theorem refusal_changes_nothing {C : Type} `{Clock C}
    (rl : RateLimiter C) (t : Time) (n : Z) (maxWait : Duration) :
  (r_ok (fst (reserve rl t n maxWait)) = false ->
     reserve rl t n maxWait =
       ({| r_ok := false; r_tokens := n; r_timeToAct := zeroTime;
           r_rate := rate rl |}, rl))
  /\ (fst (AllowN rl n) = false -> snd (AllowN rl n) = rl).
Proof.
  split.
  - apply reserve_refused.
  - unfold AllowN.
    destruct (reserve rl (Now (clock rl)) n 0) as [r rl'] eqn:Hres. simpl.
    intros Hok.
    pose proof (reserve_refused rl (Now (clock rl)) n 0) as Href.
    rewrite Hres in Href. simpl in Href. specialize (Href Hok).
    congruence.
Qed.

Lemma refusal_changes_nothing_witness :
  reserve drained (Unix 0 0) 1 0 =
    ({| r_ok := false; r_tokens := 1; r_timeToAct := zeroTime;
        r_rate := rate drained |}, drained)
  /\ snd (AllowN drained 1) = drained.
Proof.
  split.
  - apply (proj1 (refusal_changes_nothing drained (Unix 0 0) 1 0)).
    vm_compute. reflexivity.
  - apply (proj2 (refusal_changes_nothing drained (Unix 0 0) 1 0)).
    vm_compute. reflexivity.
Defined.

(** ** Requests above the burst *)

(** C9, as the code has it.  On a limiter whose rate is not the unlimited
    sentinel, [AllowN n] with [n] above the burst answers [false] and
    leaves the limiter as it was, whatever the time elapsed. *)
Theorem AllowN_above_burst {C : Type} `{Clock C} (rl : RateLimiter C) (n : Z) :
  eqb (rate rl) InfiniteRate = false ->
  maxTokens rl < n ->
  AllowN rl n = (false, rl).
Proof.
  intros Hr Hn.
  pose proof (reserve_ok_finite rl (Now (clock rl)) n 0 Hr) as Hok.
  replace (n <=? maxTokens rl) with false in Hok by (symmetry; apply Z.leb_gt; lia).
  simpl in Hok.
  pose proof (reserve_refused rl (Now (clock rl)) n 0 Hok) as Href.
  unfold AllowN. rewrite Href. reflexivity.
Qed.

Lemma AllowN_above_burst_witness :
  AllowN (New (Every (200 * Millisecond)) 3 start) 4
  = (false, New (Every (200 * Millisecond)) 3 start).
Proof.
  apply AllowN_above_burst.
  - vm_compute. reflexivity.
  - simpl. lia.
Defined.

(** C9, as stated, fails at the unlimited sentinel: with burst 100, a
    request for 100000 tokens is allowed ([TestInfRate]). *)
Lemma AllowN_above_burst_unlimited :
  maxTokens (New InfiniteRate 100 start) < 100000
  /\ fst (AllowN (New InfiniteRate 100 start) 100000) = true.
Proof. split; vm_compute; reflexivity. Qed.

(** ** Delay of a reservation *)

(** C10.  [DelayFrom t] is the infinite duration, 2^63 - 1 nanoseconds,
    on a reservation that was not granted; on a granted one it is
    [timeToAct - t] as a duration, and 0 when that is negative. *)
Theorem DelayFrom_cases (r : reservation) (t : Time) :
  (r_ok r = false -> DelayFrom r t = 2 ^ 63 - 1)
  /\ (r_ok r = true -> DelayFrom r t = Z.max 0 (Sub (r_timeToAct r) t))
  /\ (r_ok r = true -> MinInt64 <= r_timeToAct r - t <= MaxInt64 ->
      DelayFrom r t = Z.max 0 (r_timeToAct r - t)).
Proof.
  unfold DelayFrom. split; [|split].
  - intros ->. reflexivity.
  - intros ->. simpl.
    destruct (Sub (r_timeToAct r) t <? 0) eqn:Hd.
    + apply Z.ltb_lt in Hd. lia.
    + apply Z.ltb_ge in Hd. lia.
  - intros -> Hrange. simpl. unfold Sub.
    replace (MaxInt64 <? r_timeToAct r - t) with false
      by (symmetry; apply Z.ltb_ge; lia).
    replace (r_timeToAct r - t <? MinInt64) with false
      by (symmetry; apply Z.ltb_ge; lia).
    destruct (r_timeToAct r - t <? 0) eqn:Hd.
    + apply Z.ltb_lt in Hd. lia.
    + apply Z.ltb_ge in Hd. lia.
Qed.

Lemma DelayFrom_cases_witness :
  DelayFrom (mkReservation false 1 zeroTime zero) (Unix 0 0) = 2 ^ 63 - 1
  /\ DelayFrom (mkReservation true 1 (Unix 1 0) zero) (Unix 0 0) = Second
  /\ DelayFrom (mkReservation true 1 (Unix 0 0) zero) (Unix 1 0) = 0.
Proof.
  split; [|split].
  - apply (proj1 (DelayFrom_cases (mkReservation false 1 zeroTime zero) (Unix 0 0))).
    reflexivity.
  - apply (proj2 (proj2 (DelayFrom_cases (mkReservation true 1 (Unix 1 0) zero) (Unix 0 0)))).
    + reflexivity.
    + vm_compute. split; discriminate.
  - apply (proj1 (proj2 (DelayFrom_cases (mkReservation true 1 (Unix 0 0) zero) (Unix 1 0)))).
    reflexivity.
Defined.

(** ** Blocking wait *)

Section WaitFacts.

Context {C : Type} `{Clock C}.

(** With an unbounded tolerance, a request within the burst is granted. *)
Lemma reserve_unbounded_ok (rl : RateLimiter C) (t : Time) (n : Z) :
  (maxTokens rl <? n) && negb (eqb (rate rl) InfiniteRate) = false ->
  r_ok (fst (reserve rl t n InfiniteDuration)) = true.
Proof.
  intros Hg.
  destruct (eqb (rate rl) InfiniteRate) eqn:Hr.
  - rewrite (reserve_unlimited rl t n InfiniteDuration Hr). reflexivity.
  - rewrite (reserve_ok_finite rl t n InfiniteDuration Hr).
    rewrite andb_false_iff in Hg. destruct Hg as [Hg|Hg]; [|discriminate].
    apply Z.ltb_ge in Hg.
    apply andb_true_iff. split; apply Z.leb_le; [lia|].
    apply wait_for_le_infinite.
Qed.

Lemma DelayFrom_nonneg (r : reservation) (t : Time) : 0 <= DelayFrom r t.
Proof.
  unfold DelayFrom. destruct (negb (r_ok r)).
  - unfold InfiniteDuration, MaxInt64. lia.
  - destruct (Sub (r_timeToAct r) t <? 0) eqn:Hd; [lia|].
    apply Z.ltb_ge in Hd. exact Hd.
Qed.

End WaitFacts.

(** C6.  [Wait n] returns the "exceeds burst" error exactly when [n] is
    above the burst and the rate is not the unlimited sentinel, and then
    the limiter and its clock are as before: nothing slept, nothing
    recorded.  In every other case it returns [nil]: the reservation made
    with unbounded tolerance is granted, the clock has slept its delay,
    which is not negative, and the "cannot reserve" error never comes
    out. *)
Theorem Wait_cases {C : Type} `{Clock C} (rl : RateLimiter C) (n : Z) :
  let exceeds := (maxTokens rl <? n) && negb (eqb (rate rl) InfiniteRate) in
  let res := reserve rl (Now (clock rl)) n InfiniteDuration in
  let delay := DelayFrom (fst res) (Now (clock rl)) in
  (exceeds = true ->
     Wait rl n = (Some (ErrExceedsBurst n (maxTokens rl)), rl))
  /\ (exceeds = false ->
      r_ok (fst res) = true
      /\ 0 <= delay
      /\ Wait rl n = (None, sleep_if_positive (snd res) delay))
  /\ (fst (Wait rl n) = Some (ErrExceedsBurst n (maxTokens rl)) <-> exceeds = true)
  /\ fst (Wait rl n) <> Some (ErrCannotReserve n).
Proof.
  intros exceeds res delay.
  assert (Hyes : exceeds = true ->
                 Wait rl n = (Some (ErrExceedsBurst n (maxTokens rl)), rl)).
  { intros He. unfold Wait. fold exceeds. rewrite He. reflexivity. }
  assert (Hno : exceeds = false ->
                r_ok (fst res) = true /\ 0 <= delay
                /\ Wait rl n = (None, sleep_if_positive (snd res) delay)).
  { intros He.
    pose proof (reserve_unbounded_ok rl (Now (clock rl)) n He) as Hok.
    fold res in Hok.
    split; [exact Hok|]. split; [apply DelayFrom_nonneg|].
    unfold Wait. fold exceeds. rewrite He. fold res.
    subst delay. destruct res as [r rl']. simpl in *. rewrite Hok. simpl.
    unfold sleep_if_positive, advance.
    destruct (0 <? DelayFrom r (Now (clock rl))); reflexivity. }
  split; [exact Hyes|]. split; [exact Hno|]. split.
  - split.
    + intros Hw. destruct exceeds eqn:He; [reflexivity|].
      destruct (Hno eq_refl) as (_ & _ & Hw'). rewrite Hw' in Hw. discriminate.
    + intros He. rewrite (Hyes He). reflexivity.
  - destruct exceeds eqn:He.
    + rewrite (Hyes eq_refl). discriminate.
    + destruct (Hno eq_refl) as (_ & _ & Hw'). rewrite Hw'. discriminate.
Qed.

Lemma Wait_cases_witness :
  Wait drained 3 = (Some (ErrExceedsBurst 3 2), drained)
  /\ Wait drained 1
     = (None, advance (snd (reserve drained (Unix 0 0) 1 InfiniteDuration))
                      (100 * Millisecond)).
Proof.
  split.
  - apply (proj1 (Wait_cases drained 3)). vm_compute. reflexivity.
  - destruct (proj1 (proj2 (Wait_cases drained 1))) as (_ & _ & Hw).
    + vm_compute. reflexivity.
    + rewrite Hw. vm_compute. reflexivity.
Defined.


(** ** Cancellation *)

Section Cancellation.

Context {C : Type} `{Clock C}.

Lemma CancelAt_noop (r : reservation) (rl : RateLimiter C) (t : Time) :
  cancel_is_noop r rl t = true -> CancelAt r rl t = rl.
Proof.
  unfold cancel_is_noop, CancelAt. fold (restore_of r rl).
  destruct (r_ok r); simpl; [|reflexivity].
  destruct (eqb (rate rl) InfiniteRate); simpl;
    [rewrite !orb_true_r; reflexivity|].
  destruct (r_tokens r =? 0); simpl; [reflexivity|].
  destruct (Before (r_timeToAct r) t); simpl; [reflexivity|].
  destruct (leb (restore_of r rl) zero); [reflexivity | discriminate].
Qed.

Lemma CancelAt_commit (r : reservation) (rl : RateLimiter C) (t : Time) :
  cancel_is_noop r rl t = false ->
  CancelAt r rl t =
    {| rate := rate rl;
       maxTokens := maxTokens rl;
       tokens := restored_balance r rl t;
       updatedAt := t;
       eventAt := if (r_timeToAct r =? eventAt rl) && negb (Before (previous_event r) t)
                  then previous_event r else eventAt rl;
       clock := clock rl |}.
Proof.
  unfold cancel_is_noop, CancelAt.
  fold (restore_of r rl). fold (previous_event r).
  destruct (r_ok r); simpl; [|discriminate].
  destruct (r_tokens r =? 0); simpl; [discriminate|].
  destruct (Before (r_timeToAct r) t); simpl; [discriminate|].
  destruct (eqb (rate rl) InfiniteRate); simpl; [discriminate|].
  destruct (leb (restore_of r rl) zero); [discriminate|]. intros _.
  fold (restored_balance r rl t).
  destruct (r_timeToAct r =? eventAt rl); simpl; [|reflexivity].
  destruct (Before (previous_event r) t); reflexivity.
Qed.


End Cancellation.




(** ** Reconfiguration of the burst *)

(** C7, as the code has it.  [SetBurstAt t newBurst] installs [newBurst]
    first and then projects the balance to [t] at the rate in effect,
    with the new burst as the only ceiling; it sets [updatedAt] and
    [eventAt] to [t] and keeps the rate.  The result is the
    one of projecting under the old burst first whenever the balance
    projected without a ceiling is not above the old burst. *)
Theorem SetBurstAt_installs_first {C : Type} `{Clock C}
    (rl : RateLimiter C) (t : Time) (newBurst : Z) :
  let elapsed := Sub (if Before t (updatedAt rl) then updatedAt rl else t)
                     (updatedAt rl) in
  let unclamped := add (tokens rl) (tokensFromDuration (rate rl) elapsed) in
  SetBurstAt rl t newBurst =
    {| rate := rate rl;
       maxTokens := newBurst;
       tokens := if gtb unclamped (of_int newBurst) then of_int newBurst
                 else unclamped;
       updatedAt := t;
       eventAt := t;
       clock := clock rl |}
  /\ (gtb unclamped (of_int (maxTokens rl)) = false ->
      SetBurstAt rl t newBurst = SetBurstAt_projecting_first rl t newBurst).
Proof.
  intros elapsed unclamped. split.
  - reflexivity.
  - intros Hold. unfold SetBurstAt, SetBurstAt_projecting_first, updateTokens.
    simpl. fold elapsed. fold unclamped. rewrite Hold. reflexivity.
Qed.

Lemma SetBurstAt_installs_first_witness :
  SetBurstAt drained (Unix 0 100000000) 5 = SetBurstAt_projecting_first drained (Unix 0 100000000) 5.
Proof.
  apply (proj2 (SetBurstAt_installs_first drained (Unix 0 100000000) 5)).
  vm_compute. reflexivity.
Defined.

(** C7, as stated, fails when the burst is raised on a limiter that has
    been idle: the old burst of 1 does not cap the projection, and the
    ten tokens of ten idle seconds fill the new burst of 5 at once, where
    projecting under the old burst first leaves 1. *)
Lemma SetBurstAt_credits_idle_time :
  tokens (SetBurstAt idle (Now (clock idle)) 5) = of_int 5
  /\ tokens (SetBurstAt_projecting_first idle (Now (clock idle)) 5) = of_int 1
  /\ fst (AvailableTokens idle) = of_int 1.
Proof. vm_compute. repeat split; reflexivity. Qed.

(** ** The balance read by [AvailableTokens] *)

Section Projection.

Context {C : Type} `{Clock C}.

Lemma updateTokens_not_above (rl : RateLimiter C) (t : Time) :
  gtb (updateTokens rl t) (of_int (maxTokens rl)) = false.
Proof.
  unfold updateTokens. cbv zeta.
  set (sum := add (tokens rl) _).
  destruct (gtb sum (of_int (maxTokens rl))) eqn:Hg.
  - unfold gtb. apply ltb_irrefl.
  - exact Hg.
Qed.

Lemma updateTokens_nonneg (rl : RateLimiter C) (t : Time) :
  nonneg (tokens rl) -> 0 <= maxTokens rl -> finite (rate rl) ->
  nonneg (updateTokens rl t).
Proof.
  intros Htok Hmax Hrate. unfold updateTokens. cbv zeta.
  set (sum := add (tokens rl) _).
  destruct (gtb sum (of_int (maxTokens rl))); subst sum.
  - apply of_int_nonneg, Hmax.
  - apply add_nonneg; [exact Htok|].
    apply tokensFromDuration_nonneg; [exact Hrate|].
    apply Sub_nonneg. unfold Before.
    destruct (t <? updatedAt rl) eqn:Hb; [lia|].
    apply Z.ltb_ge in Hb. exact Hb.
Qed.

End Projection.

(** C2, as the code has it.  [AvailableTokens] returns the limiter as it
    was, and a value that is never above the burst: it is at most the
    burst whenever it is a number.  It is at least 0 when the balance
    stored is (no debt), the burst is not negative and the rate is a
    finite number. *)
Theorem AvailableTokens_bounds {C : Type} `{Clock C} (rl : RateLimiter C) :
  let v := fst (AvailableTokens rl) in
  snd (AvailableTokens rl) = rl
  /\ gtb v (of_int (maxTokens rl)) = false
  /\ (is_nan v = false -> leb v (of_int (maxTokens rl)) = true)
  /\ (leb zero (tokens rl) = true -> 0 <= maxTokens rl -> finite (rate rl) ->
      leb zero v = true).
Proof.
  simpl. split; [reflexivity|]. split; [apply updateTokens_not_above|]. split.
  - intros Hv. apply not_gtb_leb.
    + exact Hv.
    + apply of_int_not_nan.
    + apply updateTokens_not_above.
  - intros Htok Hmax Hrate. apply nonneg_leb_zero.
    apply updateTokens_nonneg; [apply nonneg_leb_zero; exact Htok | exact Hmax | exact Hrate].
Qed.

Lemma AvailableTokens_bounds_witness :
  leb (fst (AvailableTokens drained)) (of_int (maxTokens drained)) = true
  /\ leb zero (fst (AvailableTokens drained)) = true.
Proof.
  split.
  - apply (proj1 (proj2 (proj2 (AvailableTokens_bounds drained)))).
    vm_compute. reflexivity.
  - apply (proj2 (proj2 (proj2 (AvailableTokens_bounds drained)))).
    + vm_compute. reflexivity.
    + vm_compute. discriminate.
    + vm_compute. exact I.
Defined.

(** C2, as stated, fails on a limiter in debt.  After two calls of
    [Wait(1)] at 3 tokens per second the balance is -1 and the clock has
    slept 333333333 ns; those make 0.999999999 of a token, and
    [AvailableTokens] returns a value below zero. *)
Lemma AvailableTokens_negative :
  reachable waited_twice
  /\ tokens waited_twice = of_int (-1)
  /\ Now (clock waited_twice) = Unix 0 333333333
  /\ ltb (fst (AvailableTokens waited_twice)) zero = true
  /\ leb zero (fst (AvailableTokens waited_twice)) = false.
Proof.
  split.
  - exists (of_int 3), 1, start, [CallWait 1; CallWait 1]. reflexivity.
  - vm_compute. repeat split; reflexivity.
Qed.

(** ** The watermark [updatedAt] *)

Section Watermark.

Context {C : Type} `{Clock C}.

Lemma reserve_updatedAt (rl : RateLimiter C) (t : Time) (n : Z) (maxWait : Duration) :
  updatedAt (snd (reserve rl t n maxWait)) = updatedAt rl
  \/ updatedAt (snd (reserve rl t n maxWait)) = t.
Proof.
  unfold reserve. destruct (eqb (rate rl) InfiniteRate); [left; reflexivity|].
  destruct ((n <=? maxTokens rl) && _); simpl; [right | left]; reflexivity.
Qed.

Lemma Wait_updatedAt (rl : RateLimiter C) (n : Z) :
  updatedAt (snd (Wait rl n)) = updatedAt rl
  \/ updatedAt (snd (Wait rl n)) = Now (clock rl).
Proof.
  unfold Wait.
  destruct ((maxTokens rl <? n) && _); [left; reflexivity|].
  pose proof (reserve_updatedAt rl (Now (clock rl)) n InfiniteDuration) as Hres.
  destruct (reserve rl (Now (clock rl)) n InfiniteDuration) as [r rl'].
  simpl in Hres.
  destruct (negb (r_ok r)); [exact Hres|].
  destruct (0 <? DelayFrom r (Now (clock rl))); exact Hres.
Qed.

Lemma CancelAt_updatedAt (r : reservation) (rl : RateLimiter C) (t : Time) :
  updatedAt (CancelAt r rl t) = updatedAt rl \/ updatedAt (CancelAt r rl t) = t.
Proof.
  destruct (cancel_is_noop r rl t) eqn:Hg.
  - left. rewrite (CancelAt_noop r rl t Hg). reflexivity.
  - right. rewrite (CancelAt_commit r rl t Hg). reflexivity.
Qed.

(** A call leaves [updatedAt] alone or sets it to the instant it was
    given. *)
Lemma exec_updatedAt (c : Call) (rl : RateLimiter C) :
  updatedAt (exec c rl) = updatedAt rl
  \/ call_instant c rl = Some (updatedAt (exec c rl)).
Proof.
  destruct c as [n|n| |r|t r|b|t b|t n w|r t|r|d]; simpl.
  - unfold AllowN.
    pose proof (reserve_updatedAt rl (Now (clock rl)) n 0) as Hres.
    destruct (reserve rl (Now (clock rl)) n 0) as [r rl']. simpl in *.
    destruct Hres as [-> | ->]; auto.
  - destruct (Wait_updatedAt rl n) as [-> | ->]; auto.
  - left. reflexivity.
  - right. reflexivity.
  - right. reflexivity.
  - right. reflexivity.
  - right. reflexivity.
  - destruct (reserve_updatedAt rl t n w) as [-> | ->]; auto.
  - destruct (CancelAt_updatedAt r rl t) as [-> | ->]; auto.
  - unfold Cancel.
    destruct (CancelAt_updatedAt r rl (Now (clock rl))) as [-> | ->]; auto.
  - left. reflexivity.
Qed.

End Watermark.

(** C8, as the code has it.  Every call leaves [updatedAt] as it was or
    sets it to the instant the call was given; so [updatedAt] does not
    decrease over a call whose instant is not before it. *)
Theorem updatedAt_monotone {C : Type} `{Clock C} (rl : RateLimiter C) (c : Call) :
  (forall t, call_instant c rl = Some t -> updatedAt rl <= t) ->
  (updatedAt (exec c rl) = updatedAt rl
   \/ call_instant c rl = Some (updatedAt (exec c rl)))
  /\ updatedAt rl <= updatedAt (exec c rl).
Proof.
  intros Hfresh. pose proof (exec_updatedAt c rl) as Hu.
  split; [exact Hu|].
  destruct Hu as [Hu|Hu].
  - rewrite Hu. lia.
  - apply Hfresh, Hu.
Qed.

Lemma updatedAt_monotone_witness :
  updatedAt drained <= updatedAt (exec (CallSetRateAt (Unix 1 0) (Every Second)) drained).
Proof.
  apply (updatedAt_monotone drained (CallSetRateAt (Unix 1 0) (Every Second))).
  intros t Ht. injection Ht as <-. vm_compute. discriminate.
Defined.

(** C8, as stated, fails for an instant before [updatedAt]: [SetRateAt]
    with an instant a second back rewinds [updatedAt] by that second,
    and the drained limiter then reads full at the present instant. *)
Lemma updatedAt_rewound :
  updatedAt drained = Unix 0 0
  /\ updatedAt (exec (CallSetRateAt (Unix (-1) 0) (rate drained)) drained) = Unix (-1) 0
  /\ updatedAt (exec (CallSetRateAt (Unix (-1) 0) (rate drained)) drained)
     < updatedAt drained
  /\ fst (AvailableTokens drained) = zero
  /\ fst (AvailableTokens (exec (CallSetRateAt (Unix (-1) 0) (rate drained)) drained))
     = of_int 2.
Proof. vm_compute. repeat split; reflexivity. Qed.

(** * Further properties of the limiter *)

(** ** Elapsed time of zero *)

Section ZeroElapsed.

Lemma Sub_diag (t : Time) : Sub t t = 0.
Proof. unfold Sub. rewrite Z.sub_diag. reflexivity. Qed.

Lemma Sub_Add (t : Time) (d : Duration) :
  MinInt64 <= d <= MaxInt64 -> Sub (Add t d) t = d.
Proof.
  intros Hd. unfold Sub, Add. replace (t + d - t) with d by lia.
  replace (MaxInt64 <? d) with false by (symmetry; apply Z.ltb_ge; lia).
  replace (d <? MinInt64) with false by (symmetry; apply Z.ltb_ge; lia).
  reflexivity.
Qed.

Lemma Seconds_0 : Seconds 0 = zero.
Proof. vm_compute. reflexivity. Qed.

(** No time, no tokens: at a rate that is a finite number. *)
Lemma tokensFromDuration_0 (r : Rate) : finite r -> tokensFromDuration r 0 = zero.
Proof.
  intros Hf. unfold tokensFromDuration.
  destruct (leb r zero) eqn:Hr; [reflexivity|].
  apply not_leb_zero in Hr. rewrite Seconds_0.
  destruct r as [[]|[]| |[] mr er]; try contradiction. reflexivity.
Qed.

Lemma add_zero_r (x : float64) : x <> S754_zero true -> add x zero = x.
Proof.
  intros Hx. destruct x as [[]|[]| |[] mx ex]; try reflexivity. congruence.
Qed.

Lemma sub_zero_r (x : float64) : sub x zero = x.
Proof. destruct x as [[]|[]| |[] mx ex]; reflexivity. Qed.

Lemma signed_false_plain (x : float64) : signed false x -> x <> S754_zero true.
Proof. intros Hs ->. simpl in Hs. discriminate. Qed.

Lemma of_int_signed_false (n : Z) : 0 <= n -> signed false (of_int n).
Proof.
  intros Hn. pose proof (binary_normalize_signed n 0) as Hs.
  replace (n <? 0) with false in Hs by (symmetry; apply Z.ltb_ge; lia).
  exact Hs.
Qed.

End ZeroElapsed.

Section ReadsAtOnce.

Context {C : Type} `{Clock C}.

(** The projection when no time has passed and the rate is a finite
    number: the stored balance, capped at the burst. *)
Lemma updateTokens_at_once (rl : RateLimiter C) (t : Time) :
  finite (rate rl) -> t <= updatedAt rl -> tokens rl <> S754_zero true ->
  updateTokens rl t =
    if gtb (tokens rl) (of_int (maxTokens rl)) then of_int (maxTokens rl)
    else tokens rl.
Proof.
  intros Hf Ht Hz. unfold updateTokens, Before.
  assert (Hs : Sub (if t <? updatedAt rl then updatedAt rl else t) (updatedAt rl) = 0).
  { destruct (t <? updatedAt rl) eqn:Hb; [apply Sub_diag|].
    apply Z.ltb_ge in Hb. replace t with (updatedAt rl) by lia. apply Sub_diag. }
  rewrite Hs, (tokensFromDuration_0 _ Hf), (add_zero_r _ Hz). reflexivity.
Qed.

End ReadsAtOnce.

(** X1.  A limiter just made by [New], at a rate that is a finite number
    and with a burst that is not negative, reads full: [AvailableTokens]
    returns [float64(burst)]. *)
Theorem New_reads_full {C : Type} `{Clock C} (r : Rate) (burst : Z) (clk : C) :
  finite r -> 0 <= burst ->
  AvailableTokens (New r burst clk) = (of_int burst, New r burst clk).
Proof.
  intros Hf Hb. unfold AvailableTokens, tokensAt. f_equal.
  rewrite updateTokens_at_once; simpl.
  - unfold gtb. rewrite ltb_irrefl. reflexivity.
  - exact Hf.
  - lia.
  - apply signed_false_plain, of_int_signed_false, Hb.
Qed.

Lemma New_reads_full_witness :
  AvailableTokens (New (Every (100 * Millisecond)) 3 start)
  = (of_int 3, New (Every (100 * Millisecond)) 3 start).
Proof.
  apply New_reads_full.
  - vm_compute. exact I.
  - lia.
Defined.

(** X2.  An instant that is not after [updatedAt] reads as [updatedAt]
    itself: the projection does not go back in time. *)
Theorem stale_instant_reads_as_updatedAt {C : Type} `{Clock C}
    (rl : RateLimiter C) (t : Time) :
  t <= updatedAt rl ->
  tokensAt rl t = tokensAt rl (updatedAt rl).
Proof.
  intros Ht. unfold tokensAt, updateTokens, Before. f_equal.
  rewrite Z.ltb_irrefl.
  destruct (t <? updatedAt rl) eqn:Hb; [reflexivity|].
  apply Z.ltb_ge in Hb. replace t with (updatedAt rl) by lia. reflexivity.
Qed.

Lemma stale_instant_reads_as_updatedAt_witness :
  tokensAt indebted (Unix (-5) 0) = tokensAt indebted (updatedAt indebted).
Proof.
  apply stale_instant_reads_as_updatedAt. vm_compute. discriminate.
Defined.

(** X3.  At a rate that is not above zero nothing is ever refilled: the
    projection is the same at every instant. *)
Theorem no_refill_without_rate {C : Type} `{Clock C}
    (rl : RateLimiter C) (t : Time) :
  leb (rate rl) zero = true ->
  tokensAt rl t = tokensAt rl (updatedAt rl).
Proof.
  intros Hr. unfold tokensAt, updateTokens, tokensFromDuration.
  rewrite Hr. reflexivity.
Qed.

Lemma no_refill_without_rate_witness :
  tokensAt (SetRate drained zero) (Unix 1000 0)
  = tokensAt (SetRate drained zero) (updatedAt (SetRate drained zero)).
Proof.
  apply no_refill_without_rate. vm_compute. reflexivity.
Defined.

(** X4.  At the unlimited rate nothing limits and nothing is recorded:
    [AllowN n] answers [true] and [Wait n] returns [nil] without a call
    of [Sleep], for every [n], and the limiter stays as it was. *)
Theorem unlimited_rate_admits_all {C : Type} `{Clock C} (rl : RateLimiter C) (n : Z) :
  eqb (rate rl) InfiniteRate = true ->
  AllowN rl n = (true, rl) /\ Wait rl n = (None, rl).
Proof.
  intros Hr. split.
  - unfold AllowN. rewrite (reserve_unlimited rl _ n 0 Hr). reflexivity.
  - unfold Wait. rewrite Hr, andb_false_r.
    rewrite (reserve_unlimited rl _ n InfiniteDuration Hr). simpl.
    unfold DelayFrom. simpl. rewrite Sub_diag. reflexivity.
Qed.

Lemma unlimited_rate_admits_all_witness :
  AllowN unlimited 100000 = (true, unlimited)
  /\ Wait unlimited 100000 = (None, unlimited).
Proof.
  apply unlimited_rate_admits_all. vm_compute. reflexivity.
Defined.

(** ** What [Wait] commits and sleeps *)

Section WaitCommit.

Context {C : Type} `{Clock C}.

Lemma wait_for_range (rl : RateLimiter C) (t : Time) (n : Z) :
  MinInt64 <= wait_for rl t n <= MaxInt64.
Proof.
  unfold wait_for. destruct (ltb _ zero).
  - apply durationFromTokens_range.
  - unfold MinInt64, MaxInt64. lia.
Qed.

Lemma reserve_unbounded_finite (rl : RateLimiter C) (t : Time) (n : Z) :
  eqb (rate rl) InfiniteRate = false -> n <= maxTokens rl ->
  reserve rl t n InfiniteDuration =
    ({| r_ok := true; r_tokens := n;
        r_timeToAct := Add t (wait_for rl t n); r_rate := rate rl |},
     committed rl t n).
Proof.
  intros Hr Hn. apply reserve_granted_finite; [exact Hr|].
  rewrite (reserve_ok_finite rl t n InfiniteDuration Hr).
  apply andb_true_iff. split; apply Z.leb_le; [exact Hn|].
  apply wait_for_le_infinite.
Qed.

Lemma Wait_within_burst (rl : RateLimiter C) (n : Z) :
  eqb (rate rl) InfiniteRate = false -> n <= maxTokens rl ->
  let t := Now (clock rl) in
  Wait rl n = (None, sleep_if_positive (committed rl t n) (wait_for rl t n)).
Proof.
  intros Hr Hn t. unfold Wait. fold t. rewrite Hr.
  replace (maxTokens rl <? n) with false by (symmetry; apply Z.ltb_ge; lia).
  simpl. rewrite (reserve_unbounded_finite rl t n Hr Hn). simpl.
  unfold DelayFrom. simpl.
  rewrite (Sub_Add t _ (wait_for_range rl t n)).
  unfold sleep_if_positive, advance.
  destruct (wait_for rl t n <? 0) eqn:Hneg.
  - apply Z.ltb_lt in Hneg.
    replace (0 <? wait_for rl t n) with false by (symmetry; apply Z.ltb_ge; lia).
    reflexivity.
  - destruct (0 <? wait_for rl t n); reflexivity.
Qed.

End WaitCommit.

(** X5.  At a rate other than the unlimited sentinel, [Wait n] with [n]
    within the burst always returns [nil]: it commits the reservation
    (balance less [n], [updatedAt] the present instant, [eventAt] that
    instant plus the wait) and calls [Sleep] for exactly the wait that
    [reserve] computed, when that is positive. *)
Theorem Wait_commits_and_sleeps {C : Type} `{Clock C} (rl : RateLimiter C) (n : Z) :
  eqb (rate rl) InfiniteRate = false -> n <= maxTokens rl ->
  let t := Now (clock rl) in
  Wait rl n = (None, sleep_if_positive (committed rl t n) (wait_for rl t n)).
Proof. apply Wait_within_burst. Qed.

Lemma Wait_commits_and_sleeps_witness :
  Wait drained 1 = (None, advance (committed drained (Unix 0 0) 1) (100 * Millisecond)).
Proof.
  rewrite (Wait_commits_and_sleeps drained 1).
  - vm_compute. reflexivity.
  - vm_compute. reflexivity.
  - vm_compute. discriminate.
Defined.

Section NoRate.

Lemma leb_zero_not_unlimited (r : Rate) :
  leb r zero = true -> eqb r InfiniteRate = false.
Proof.
  destruct r as [[]|[]| |[] mr er]; simpl; intros Hr;
    try reflexivity; discriminate.
Qed.

End NoRate.

(** X6.  At a rate that is not above zero a request the balance does not
    cover waits for ever: [reserve] refuses it for every tolerance short
    of the infinite duration, and [Wait] returns [nil] after a call of
    [Sleep] for the infinite duration, the debt recorded and [eventAt]
    that far ahead. *)
Theorem no_rate_waits_for_ever {C : Type} `{Clock C}
    (rl : RateLimiter C) (n : Z) (maxWait : Duration) :
  leb (rate rl) zero = true -> n <= maxTokens rl ->
  ltb (balance_after rl (Now (clock rl)) n) zero = true ->
  let t := Now (clock rl) in
  wait_for rl t n = InfiniteDuration
  /\ (maxWait < InfiniteDuration -> r_ok (fst (reserve rl t n maxWait)) = false)
  /\ Wait rl n = (None, advance (committed rl t n) InfiniteDuration)
  /\ eventAt (snd (Wait rl n)) = t + InfiniteDuration.
Proof.
  intros Hr Hn Hb t.
  assert (Hw : wait_for rl t n = InfiniteDuration).
  { unfold wait_for, durationFromTokens. fold t in Hb. rewrite Hb, Hr. reflexivity. }
  pose proof (leb_zero_not_unlimited _ Hr) as Hfin.
  split; [exact Hw|]. split; [|split].
  - intros Hm. rewrite (reserve_ok_finite rl t n maxWait Hfin), Hw.
    apply andb_false_iff. right. apply Z.leb_gt. exact Hm.
  - subst t. rewrite (Wait_within_burst rl n Hfin Hn). cbv zeta.
    rewrite Hw. reflexivity.
  - subst t. rewrite (Wait_within_burst rl n Hfin Hn). cbv zeta.
    rewrite Hw. simpl. rewrite Hw. reflexivity.
Qed.

Lemma no_rate_waits_for_ever_witness :
  Wait (SetRate drained zero) 1
  = (None, advance (committed (SetRate drained zero) (Unix 0 0) 1) InfiniteDuration)
  /\ r_ok (fst (reserve (SetRate drained zero) (Unix 0 0) 1 (3600 * Second))) = false.
Proof.
  destruct (no_rate_waits_for_ever (SetRate drained zero) 1 (3600 * Second))
    as (_ & Href & Hwait & _).
  - vm_compute. reflexivity.
  - vm_compute. discriminate.
  - vm_compute. reflexivity.
  - split; [exact Hwait|]. apply Href. vm_compute. reflexivity.
Defined.

(** ** What the calls leave alone *)

Section Frames.

Context {C : Type} `{Clock C}.

Lemma reserve_config (rl : RateLimiter C) (t : Time) (n : Z) (maxWait : Duration) :
  rate (snd (reserve rl t n maxWait)) = rate rl
  /\ maxTokens (snd (reserve rl t n maxWait)) = maxTokens rl
  /\ clock (snd (reserve rl t n maxWait)) = clock rl.
Proof.
  unfold reserve. destruct (eqb (rate rl) InfiniteRate); [auto|].
  destruct ((n <=? maxTokens rl) && _); simpl; auto.
Qed.

Lemma Wait_config (rl : RateLimiter C) (n : Z) :
  rate (snd (Wait rl n)) = rate rl
  /\ maxTokens (snd (Wait rl n)) = maxTokens rl.
Proof.
  unfold Wait.
  destruct ((maxTokens rl <? n) && _); [auto|].
  pose proof (reserve_config rl (Now (clock rl)) n InfiniteDuration) as Hres.
  destruct (reserve rl (Now (clock rl)) n InfiniteDuration) as [r rl'].
  simpl in Hres. destruct Hres as (Hr & Hm & _).
  destruct (negb (r_ok r)); [auto|].
  destruct (0 <? DelayFrom r (Now (clock rl))); simpl; auto.
Qed.

Lemma CancelAt_config (r : reservation) (rl : RateLimiter C) (t : Time) :
  rate (CancelAt r rl t) = rate rl
  /\ maxTokens (CancelAt r rl t) = maxTokens rl
  /\ clock (CancelAt r rl t) = clock rl.
Proof.
  destruct (cancel_is_noop r rl t) eqn:Hg.
  - rewrite (CancelAt_noop r rl t Hg). auto.
  - rewrite (CancelAt_commit r rl t Hg). simpl. auto.
Qed.

End Frames.

(** ** Rates made by [Every] *)

Section EveryFacts.

Lemma add_signed_false (x y : float64) :
  signed false x -> signed false y -> signed false (add x y).
Proof.
  intros Hx Hy.
  destruct x as [sx|sx| |sx mx ex]; simpl in Hx; try contradiction; subst;
    destruct y as [sy|sy| |sy my ey]; simpl in Hy; try contradiction; subst;
    try reflexivity.
  unfold add, SFadd. simpl cond_Zopp.
  set (m := (_ + _)%Z).
  assert (Hm : (m <? 0) = false) by (apply Z.ltb_ge; subst m; lia).
  rewrite <- Hm. apply binary_normalize_signed.
Qed.

Lemma Seconds_signed_false (d : Duration) : 0 <= d -> signed false (Seconds d).
Proof.
  intros Hd. unfold Seconds. rewrite of_int_1e9.
  apply add_signed_false.
  - apply of_int_signed_false. apply Z.quot_pos; unfold Second; lia.
  - pose proof (of_int_signed_false (Z.rem d Second)
                  ltac:(apply Z.rem_nonneg; unfold Second; lia)) as Hn.
    destruct (of_int (Z.rem d Second)) as [sx|sx| |sx mx ex];
      simpl in Hn; try contradiction; subst; try reflexivity.
    apply (div_finite_signed false false).
Qed.

End EveryFacts.

(** X8.  [Every] gives the unlimited sentinel for an interval that is
    not positive, and for every interval a rate that is a number and not
    negative: never NaN, never below zero. *)
Theorem Every_is_a_rate (interval : Duration) :
  (interval <= 0 -> Every interval = InfiniteRate)
  /\ signed false (Every interval)
  /\ is_nan (Every interval) = false
  /\ ltb (Every interval) zero = false.
Proof.
  assert (Hs : signed false (Every interval)).
  { unfold Every. destruct (interval <=? 0) eqn:Hi; [reflexivity|].
    apply Z.leb_gt in Hi.
    pose proof (Seconds_signed_false interval ltac:(lia)) as Hsec.
    replace (of_int 1) with (S754_finite false 4503599627370496 (-52))
      by (vm_compute; reflexivity).
    destruct (Seconds interval) as [sy|sy| |sy my ey];
      simpl in Hsec; try contradiction; subst; try reflexivity.
    apply (div_finite_signed false false). }
  split; [|split; [exact Hs|split]].
  - intros Hi. unfold Every.
    replace (interval <=? 0) with true by (symmetry; apply Z.leb_le; exact Hi).
    reflexivity.
  - destruct (Every interval); simpl in Hs; try contradiction; reflexivity.
  - destruct (Every interval) as [sy|sy| |sy my ey]; simpl in Hs;
      try contradiction; subst; reflexivity.
Qed.

Lemma Every_is_a_rate_witness : Every (-5) = InfiniteRate.
Proof. apply (proj1 (Every_is_a_rate (-5))). lia. Defined.

(** ** Whole numbers in binary64: exact conversion and arithmetic *)

Section WholeNumbers.

Lemma digits2_pos_size (p : positive) : digits2_pos p = Pos.size p.
Proof. induction p as [p IH|p IH|]; simpl; congruence. Qed.

Lemma shl_0 (k : positive) : shl k 0 = k.
Proof. reflexivity. Qed.

Lemma shl_succ (k : positive) (z : Z) : 0 <= z -> shl k (z + 1) = xO (shl k z).
Proof.
  intros Hz. destruct z as [|p|p]; try lia; simpl.
  - reflexivity.
  - rewrite Pos.add_1_r. apply Pos.iter_succ.
Qed.

Lemma shl_add (k : positive) (a b : Z) :
  0 <= a -> 0 <= b -> shl (shl k a) b = shl k (a + b).
Proof.
  intros Ha Hb. destruct a as [|p|p]; try lia; [reflexivity|].
  destruct b as [|q|q]; try lia; [reflexivity|].
  simpl. rewrite Pos.add_comm. symmetry. apply Pos.iter_add.
Qed.

Lemma size_shl (k : positive) (z : Z) :
  0 <= z -> Zpos (Pos.size (shl k z)) = Zpos (Pos.size k) + z.
Proof.
  intros Hz. pattern z. apply natlike_ind; [reflexivity| |exact Hz].
  intros x Hx IH. unfold Z.succ. rewrite (shl_succ k x Hx). simpl Pos.size.
  rewrite Pos2Z.inj_succ, IH. lia.
Qed.

Lemma Zpos_shl (k : positive) (z : Z) :
  0 <= z -> Zpos (shl k z) = Zpos k * 2 ^ z.
Proof.
  intros Hz. pattern z. apply natlike_ind; [simpl; lia| |exact Hz].
  intros x Hx IH. unfold Z.succ. rewrite (shl_succ k x Hx).
  rewrite Pos2Z.inj_xO, IH, Z.pow_add_r by lia. lia.
Qed.

(** The iteration of [SpecFloat] is the one of [Pos]. *)
Lemma iter_pos_iter {A : Type} (f : A -> A) (p : positive) :
  forall x, iter_pos f p x = Pos.iter f x p.
Proof.
  induction p as [p IH|p IH|]; intros x; simpl.
  - rewrite !IH. rewrite <- Pos.iter_swap. rewrite <- Pos.iter_swap. reflexivity.
  - rewrite !IH. reflexivity.
  - reflexivity.
Qed.

(** Shifting out bits that are all zero loses nothing. *)
Lemma shr_shl (k : positive) (z : Z) (e : Z) :
  0 <= z ->
  shr (Build_shr_record (Zpos (shl k z)) false false) e z
  = (Build_shr_record (Zpos k) false false, e + z).
Proof.
  intros Hz. destruct z as [|p|p]; try lia.
  - simpl. f_equal. lia.
  - unfold shr. f_equal. rewrite iter_pos_iter. simpl shl.
    induction p as [|p IH] using Pos.peano_ind.
    + reflexivity.
    + rewrite Pos.iter_succ_r. rewrite (Pos.iter_succ p _ xO k). simpl shr_1.
      apply IH. lia.
Qed.

Lemma size_pos (k : positive) : 1 <= Zpos (Pos.size k).
Proof. lia. Qed.

(** A full mantissa with zeros below it rounds to itself. *)
Lemma binary_round_aux_exact (s : bool) (k : positive) (q e : Z) :
  Zpos (Pos.size k) = 53 -> 0 <= q -> -1074 <= e + q <= 971 ->
  binary_round_aux prec emax s (Zpos (shl k q)) e loc_Exact = S754_finite s k (e + q).
Proof.
  intros Hk Hq He. unfold binary_round_aux.
  assert (H1 : shr_fexp prec emax (Zpos (shl k q)) e loc_Exact
               = (Build_shr_record (Zpos k) false false, e + q)).
  { unfold shr_fexp, fexp, emin, Zdigits2. rewrite digits2_pos_size.
    rewrite (size_shl k q Hq), Hk. cbn [shr_record_of_loc].
    replace (Z.max (53 + q + e - prec) (3 - emax - prec) - e) with q
      by (unfold prec, emax; lia).
    apply shr_shl, Hq. }
  rewrite H1. cbn [shr_m loc_of_shr_record round_nearest_even].
  assert (H2 : shr_fexp prec emax (Zpos k) (e + q) loc_Exact
               = (Build_shr_record (Zpos k) false false, e + q)).
  { unfold shr_fexp, fexp, emin, Zdigits2. rewrite digits2_pos_size, Hk.
    cbn [shr_record_of_loc].
    replace (Z.max (53 + (e + q) - prec) (3 - emax - prec) - (e + q)) with 0
      by (unfold prec, emax; lia).
    reflexivity. }
  rewrite H2. cbn [shr_m].
  replace (e + q <=? emax - prec) with true
    by (symmetry; apply Z.leb_le; unfold prec, emax; lia).
  reflexivity.
Qed.

(** An integer of at most 53 bits, written with [j] zeros below it,
    rounds to its exact form. *)
Lemma binary_round_exact (s : bool) (k : positive) (j : Z) :
  Zpos (Pos.size k) <= 53 -> 0 <= j ->
  binary_round prec emax s (shl k j) (- j) = canon s k.
Proof.
  intros Hk Hj. unfold binary_round, canon.
  set (d := Zpos (Pos.size k)) in *.
  assert (Hd : 1 <= d) by (subst d; lia).
  assert (Hfill : Zpos (Pos.size (shl k (53 - d))) = 53).
  { rewrite size_shl by lia. fold d. lia. }
  rewrite digits2_pos_size, (size_shl k j Hj). fold d.
  unfold fexp, emin.
  replace (Z.max (d + j + - j - prec) (3 - emax - prec)) with (d - 53)
    by (unfold prec, emax; lia).
  unfold shl_align.
  destruct (d - 53 - - j) as [|p|p] eqn:Hp.
  - (* no move either way *)
    replace (shl k j) with (shl (shl k (53 - d)) 0)
      by (rewrite shl_0; f_equal; lia).
    rewrite binary_round_aux_exact; [f_equal; lia | exact Hfill | lia | lia].
  - (* zeros to drop *)
    replace (shl k j) with (shl (shl k (53 - d)) (Zpos p))
      by (rewrite shl_add by lia; f_equal; lia).
    rewrite binary_round_aux_exact; [f_equal; lia | exact Hfill | lia | lia].
  - (* room to fill *)
    change (Pos.iter xO (shl k j) p) with (shl (shl k j) (Zpos p)).
    rewrite shl_add by lia.
    replace (j + Zpos p) with (53 - d) by lia.
    replace (shl k (53 - d)) with (shl (shl k (53 - d)) 0) at 1 by apply shl_0.
    rewrite binary_round_aux_exact; [f_equal; lia | exact Hfill | lia | lia].
Qed.

Lemma size_lower (k : positive) : 2 ^ Zpos (Pos.size k) <= 2 * Zpos k.
Proof.
  induction k as [p IH|p IH|]; simpl Pos.size.
  - rewrite Pos2Z.inj_succ, Z.pow_succ_r by lia. lia.
  - rewrite Pos2Z.inj_succ, Z.pow_succ_r by lia. lia.
  - simpl. lia.
Qed.

Lemma size_upper (k : positive) : Zpos k < 2 ^ Zpos (Pos.size k).
Proof.
  induction k as [p IH|p IH|]; simpl Pos.size.
  - rewrite Pos2Z.inj_succ, Z.pow_succ_r by lia. lia.
  - rewrite Pos2Z.inj_succ, Z.pow_succ_r by lia. lia.
  - simpl. lia.
Qed.

Lemma size_small (k : positive) : Zpos k < 2 ^ 53 -> Zpos (Pos.size k) <= 53.
Proof.
  intros Hk. pose proof (size_lower k) as Hle.
  destruct (Z_le_gt_dec (Zpos (Pos.size k)) 53) as [Hs|Hs]; [exact Hs|].
  assert (Hp : 2 ^ 54 <= 2 ^ Zpos (Pos.size k)) by (apply Z.pow_le_mono_r; lia).
  change (2 ^ 54) with 18014398509481984 in Hp.
  change (2 ^ 53) with 9007199254740992 in Hk. lia.
Qed.

End WholeNumbers.

Section WholeArithmetic.

Lemma of_int_pos (k : positive) :
  Zpos k < 2 ^ 53 -> of_int (Zpos k) = canon false k.
Proof.
  intros Hk. unfold of_int, binary_normalize.
  change k with (shl k 0) at 1. change 0 with (- 0).
  apply binary_round_exact; [apply size_small, Hk | lia].
Qed.

Lemma of_int_neg (k : positive) :
  Zpos k < 2 ^ 53 -> of_int (Zneg k) = canon true k.
Proof.
  intros Hk. unfold of_int, binary_normalize.
  change k with (shl k 0) at 1. change 0 with (- 0).
  apply binary_round_exact; [apply size_small, Hk | lia].
Qed.

Lemma of_int_opp (n : Z) : small n -> n <> 0 -> of_int (- n) = neg (of_int n).
Proof.
  unfold small. intros Hn Hz. destruct n as [|k|k]; simpl Z.opp.
  - congruence.
  - rewrite of_int_neg, of_int_pos by lia. reflexivity.
  - rewrite of_int_neg, of_int_pos by lia. reflexivity.
Qed.

(** An integer held exactly, written with [j] zeros below it, normalizes
    to the conversion of the integer. *)
Lemma binary_normalize_exact (n j : Z) :
  small n -> 0 <= j ->
  binary_normalize prec emax (n * 2 ^ j) (- j) false = of_int n.
Proof.
  unfold small. intros Hn Hj. destruct n as [|k|k].
  - reflexivity.
  - rewrite <- (Zpos_shl k j Hj), of_int_pos by lia. simpl.
    apply binary_round_exact; [apply size_small; lia | exact Hj].
  - replace (Zneg k * 2 ^ j) with (Zneg (shl k j))
      by (rewrite <- Pos2Z.opp_pos, (Zpos_shl k j Hj); lia).
    rewrite of_int_neg by lia. simpl.
    apply binary_round_exact; [apply size_small; lia | exact Hj].
Qed.

Lemma shl_align_fst (m : positive) (e ez : Z) :
  ez <= e -> fst (shl_align m e ez) = shl m (e - ez).
Proof.
  intros He. unfold shl_align.
  destruct (ez - e) as [|p|p] eqn:Hd.
  - replace (e - ez) with 0 by lia. reflexivity.
  - lia.
  - replace (e - ez) with (Zpos p) by lia. reflexivity.
Qed.

(** The mantissa of an exact integer, aligned to an exponent [- j] at or
    below its own, is the integer with [j] zeros below it. *)
Lemma canon_aligned (s : bool) (k : positive) (j : Z) :
  Zpos (Pos.size k) <= 53 -> 53 - Zpos (Pos.size k) <= j ->
  cond_Zopp s (Zpos (fst (shl_align (shl k (53 - Zpos (Pos.size k)))
                                    (Zpos (Pos.size k) - 53) (- j))))
  = cond_Zopp s (Zpos k) * 2 ^ j.
Proof.
  intros Hk Hj. rewrite shl_align_fst by lia.
  rewrite shl_add by lia.
  replace (53 - Zpos (Pos.size k) + (Zpos (Pos.size k) - 53 - - j)) with j by lia.
  rewrite Zpos_shl by lia. destruct s; unfold cond_Zopp; ring.
Qed.

Lemma of_int_canon (n : Z) :
  small n -> n <> 0 ->
  of_int n = canon (n <? 0) (Z.to_pos (Z.abs n))
  /\ cond_Zopp (n <? 0) (Zpos (Z.to_pos (Z.abs n))) = n
  /\ Zpos (Pos.size (Z.to_pos (Z.abs n))) <= 53.
Proof.
  unfold small. intros Hn Hz. destruct n as [|k|k]; [congruence| |]; simpl.
  - split; [apply of_int_pos; lia|]. split; [reflexivity|]. apply size_small. lia.
  - split; [apply of_int_neg; lia|]. split; [reflexivity|]. apply size_small. lia.
Qed.

(** Sums and differences of integers that binary64 holds exactly, the
    result included, are exact. *)
Lemma add_exact (a b : Z) :
  small a -> small b -> small (a + b) ->
  add (of_int a) (of_int b) = of_int (a + b).
Proof.
  intros Ha Hb Hab.
  destruct (Z.eq_dec a 0) as [->|Haz].
  { simpl Z.add. destruct (Z.eq_dec b 0) as [->|Hbz]; [reflexivity|].
    destruct (of_int_canon b Hb Hbz) as (-> & _). reflexivity. }
  destruct (Z.eq_dec b 0) as [->|Hbz].
  { rewrite Z.add_0_r. destruct (of_int_canon a Ha Haz) as (-> & _). reflexivity. }
  destruct (of_int_canon a Ha Haz) as (Ea & Va & Sa).
  destruct (of_int_canon b Hb Hbz) as (Eb & Vb & Sb).
  rewrite Ea, Eb. unfold canon, add, SFadd.
  set (da := Zpos (Pos.size (Z.to_pos (Z.abs a)))) in *.
  set (db := Zpos (Pos.size (Z.to_pos (Z.abs b)))) in *.
  assert (Hda : 1 <= da) by (subst da; lia).
  assert (Hdb : 1 <= db) by (subst db; lia).
  set (j := - Z.min (da - 53) (db - 53)).
  replace (Z.min (da - 53) (db - 53)) with (- j) by (subst j; lia).
  subst da db.
  rewrite !canon_aligned by (try assumption; subst j; lia).
  rewrite Va, Vb, <- Z.mul_add_distr_r.
  apply binary_normalize_exact; [exact Hab | subst j; lia].
Qed.

Lemma sub_exact (a b : Z) :
  small a -> small b -> small (a - b) ->
  sub (of_int a) (of_int b) = of_int (a - b).
Proof.
  intros Ha Hb Hab.
  destruct (Z.eq_dec b 0) as [->|Hbz].
  { rewrite Z.sub_0_r. apply sub_zero_r. }
  destruct (Z.eq_dec a 0) as [->|Haz].
  { simpl Z.sub. rewrite (of_int_opp b Hb Hbz).
    destruct (of_int_canon b Hb Hbz) as (-> & _). reflexivity. }
  destruct (of_int_canon a Ha Haz) as (Ea & Va & Sa).
  destruct (of_int_canon b Hb Hbz) as (Eb & Vb & Sb).
  rewrite Ea, Eb. unfold canon, sub, SFsub.
  set (da := Zpos (Pos.size (Z.to_pos (Z.abs a)))) in *.
  set (db := Zpos (Pos.size (Z.to_pos (Z.abs b)))) in *.
  assert (Hda : 1 <= da) by (subst da; lia).
  assert (Hdb : 1 <= db) by (subst db; lia).
  set (j := - Z.min (da - 53) (db - 53)).
  replace (Z.min (da - 53) (db - 53)) with (- j) by (subst j; lia).
  subst da db.
  rewrite !canon_aligned by (try assumption; subst j; lia).
  rewrite Va, Vb, <- Z.mul_sub_distr_r.
  apply binary_normalize_exact; [exact Hab | subst j; lia].
Qed.

End WholeArithmetic.

Section WholeOrder.

Lemma canon_compare (ka kb : positive) :
  Zpos (Pos.size ka) <= 53 -> Zpos (Pos.size kb) <= 53 ->
  (match Zpos (Pos.size ka) - 53 ?= Zpos (Pos.size kb) - 53 with
   | Lt => Lt
   | Gt => Gt
   | Eq => Pos.compare_cont Eq (shl ka (53 - Zpos (Pos.size ka)))
                               (shl kb (53 - Zpos (Pos.size kb)))
   end) = (Zpos ka ?= Zpos kb).
Proof.
  intros Ha Hb.
  pose proof (size_upper ka) as Ua. pose proof (size_lower ka) as La.
  pose proof (size_upper kb) as Ub. pose proof (size_lower kb) as Lb.
  set (da := Zpos (Pos.size ka)) in *. set (db := Zpos (Pos.size kb)) in *.
  assert (Hda : 1 <= da) by (subst da; lia).
  assert (Hdb : 1 <= db) by (subst db; lia).
  destruct (Z.compare_spec (da - 53) (db - 53)) as [He|He|He].
  - replace db with da by lia.
    change (Pos.compare_cont Eq ?x ?y) with (Zpos x ?= Zpos y).
    rewrite !Zpos_shl by lia.
    symmetry. apply Zmult_compare_compat_r. apply Z.lt_gt, Z.pow_pos_nonneg; lia.
  - symmetry. apply Z.compare_lt_iff.
    assert (Hp : 2 ^ da <= 2 ^ (db - 1)) by (apply Z.pow_le_mono_r; lia).
    replace (2 ^ db) with (2 * 2 ^ (db - 1)) in Lb
      by (rewrite <- Z.pow_succ_r by lia; f_equal; lia).
    lia.
  - symmetry. apply Z.compare_gt_iff.
    assert (Hp : 2 ^ db <= 2 ^ (da - 1)) by (apply Z.pow_le_mono_r; lia).
    replace (2 ^ da) with (2 * 2 ^ (da - 1)) in La
      by (rewrite <- Z.pow_succ_r by lia; f_equal; lia).
    lia.
Qed.

(** On integers held exactly, binary64 comparison is integer comparison. *)
Lemma compare_of_int (a b : Z) :
  small a -> small b -> SFcompare (of_int a) (of_int b) = Some (a ?= b).
Proof.
  unfold small. intros Ha Hb.
  destruct a as [|ka|ka]; destruct b as [|kb|kb];
    rewrite ?of_int_pos, ?of_int_neg by lia; try reflexivity.
  - unfold canon. cbn [SFcompare]. f_equal.
    apply canon_compare; apply size_small; lia.
  - unfold canon. cbn [SFcompare]. f_equal.
    pose proof (canon_compare ka kb ltac:(apply size_small; lia)
                  ltac:(apply size_small; lia)) as Hc.
    change (Zneg ka ?= Zneg kb) with (CompOpp (Zpos ka ?= Zpos kb)).
    rewrite <- Hc.
    destruct (Zpos (Pos.size ka) - 53 ?= Zpos (Pos.size kb) - 53); reflexivity.
Qed.

Lemma ltb_of_int (a b : Z) : small a -> small b -> ltb (of_int a) (of_int b) = (a <? b).
Proof.
  intros Ha Hb. unfold ltb, SFltb, Z.ltb. rewrite (compare_of_int a b Ha Hb).
  reflexivity.
Qed.

Lemma leb_of_int (a b : Z) : small a -> small b -> leb (of_int a) (of_int b) = (a <=? b).
Proof.
  intros Ha Hb. unfold leb, SFleb, Z.leb. rewrite (compare_of_int a b Ha Hb).
  destruct (a ?= b); reflexivity.
Qed.

Lemma small_0 : small 0.
Proof. unfold small. split; reflexivity. Qed.

Lemma of_int_plain (n : Z) : small n -> of_int n <> S754_zero true.
Proof.
  unfold small. intros Hn. destruct n as [|k|k];
    rewrite ?of_int_pos, ?of_int_neg by lia; discriminate.
Qed.

Lemma of_int_finite (n : Z) : small n -> finite (of_int n).
Proof.
  unfold small. intros Hn. destruct n as [|k|k];
    rewrite ?of_int_pos, ?of_int_neg by lia; exact I.
Qed.

End WholeOrder.

(** ** Whole tokens at one instant *)

Section WholeLedger.

Context {C : Type} `{Clock C}.

Lemma updateTokens_whole (rl : RateLimiter C) (j : Z) (t : Time) :
  whole_at rl j t -> updateTokens rl t = of_int j.
Proof.
  intros (Htok & Hj & Hjb & Hb & Hf & _ & Ht).
  rewrite (updateTokens_at_once rl t Hf Ht); rewrite Htok.
  - unfold gtb. rewrite (ltb_of_int _ _ Hb Hj).
    replace (maxTokens rl <? j) with false by (symmetry; apply Z.ltb_ge; lia).
    reflexivity.
  - apply of_int_plain, Hj.
Qed.

Lemma balance_after_whole (rl : RateLimiter C) (j : Z) (t : Time) (n : Z) :
  whole_at rl j t -> small n -> small (j - n) ->
  balance_after rl t n = of_int (j - n).
Proof.
  intros Hw Hn Hd. unfold balance_after. rewrite (updateTokens_whole rl j t Hw).
  destruct Hw as (_ & Hj & _). apply sub_exact; assumption.
Qed.

(** Enough tokens: no wait. *)
Lemma wait_for_whole_enough (rl : RateLimiter C) (j : Z) (t : Time) (n : Z) :
  whole_at rl j t -> small n -> small (j - n) -> n <= j ->
  wait_for rl t n = 0.
Proof.
  intros Hw Hn Hd Hle. unfold wait_for.
  rewrite (balance_after_whole rl j t n Hw Hn Hd).
  change zero with (of_int 0). rewrite (ltb_of_int _ _ Hd small_0).
  replace (j - n <? 0) with false by (symmetry; apply Z.ltb_ge; lia).
  reflexivity.
Qed.

(** Tokens missing: the wait is the duration of the missing ones. *)
Lemma wait_for_whole_short (rl : RateLimiter C) (j : Z) (t : Time) (n : Z) :
  whole_at rl j t -> small n -> small (j - n) -> j < n ->
  wait_for rl t n = durationFromTokens (rate rl) (of_int (n - j)).
Proof.
  intros Hw Hn Hd Hlt. unfold wait_for.
  rewrite (balance_after_whole rl j t n Hw Hn Hd).
  change zero with (of_int 0). rewrite (ltb_of_int _ _ Hd small_0).
  replace (j - n <? 0) with true by (symmetry; apply Z.ltb_lt; lia).
  rewrite <- (of_int_opp (j - n) Hd) by lia.
  do 2 f_equal. lia.
Qed.

Lemma reserve_whole_enough (rl : RateLimiter C) (j : Z) (t : Time) (n : Z)
    (maxWait : Duration) :
  whole_at rl j t -> small n -> small (j - n) -> n <= j -> n <= maxTokens rl ->
  0 <= maxWait ->
  reserve rl t n maxWait =
    ({| r_ok := true; r_tokens := n; r_timeToAct := t; r_rate := rate rl |},
     restamped rl (of_int (j - n)) t).
Proof.
  intros Hw Hn Hd Hle Hnb Hm.
  pose proof (wait_for_whole_enough rl j t n Hw Hn Hd Hle) as Hwait.
  pose proof Hw as (_ & _ & _ & _ & _ & Hr & _).
  rewrite (reserve_granted_finite rl t n maxWait Hr).
  - rewrite Hwait, (balance_after_whole rl j t n Hw Hn Hd).
    unfold Add, restamped. rewrite Z.add_0_r. reflexivity.
  - rewrite (reserve_ok_finite rl t n maxWait Hr), Hwait.
    apply andb_true_iff. split; apply Z.leb_le; lia.
Qed.

Lemma AllowN_whole_enough (rl : RateLimiter C) (j n : Z) :
  whole_at rl j (Now (clock rl)) -> small n -> small (j - n) ->
  n <= j -> n <= maxTokens rl ->
  AllowN rl n = (true, restamped rl (of_int (j - n)) (Now (clock rl))).
Proof.
  intros Hw Hn Hd Hle Hnb. unfold AllowN.
  rewrite (reserve_whole_enough rl j _ n 0 Hw Hn Hd Hle Hnb ltac:(lia)).
  reflexivity.
Qed.

Lemma restamped_whole (rl : RateLimiter C) (j j' : Z) (t : Time) :
  whole_at rl j t -> small j' -> j' <= maxTokens rl ->
  whole_at (restamped rl (of_int j') t) j' t.
Proof.
  intros (_ & _ & _ & Hb & Hf & Hr & _) Hj Hle.
  unfold whole_at. simpl. repeat split; try assumption; try apply Hj; try apply Hb; lia.
Qed.

End WholeLedger.

(** X9.  When the limiter holds [j] whole tokens and no time has passed,
    [AllowN n] for [0 <= n <= j] within the burst answers [true] and
    leaves exactly [j - n] tokens, stamped with the present instant: the
    floating-point balance loses nothing. *)
Theorem AllowN_takes_whole_tokens {C : Type} `{Clock C} (rl : RateLimiter C) (j n : Z) :
  whole_at rl j (Now (clock rl)) -> 0 <= n <= j -> n <= maxTokens rl ->
  AllowN rl n = (true, restamped rl (of_int (j - n)) (Now (clock rl))).
Proof.
  intros Hw Hn Hnb. pose proof Hw as (_ & Hj & _).
  apply (AllowN_whole_enough rl j n Hw); unfold small in *; lia.
Qed.

Lemma AllowN_takes_whole_tokens_witness :
  AllowN full5 3 = (true, restamped full5 (of_int 2) (Unix 0 0)).
Proof.
  rewrite (AllowN_takes_whole_tokens full5 5 3).
  - vm_compute. reflexivity.
  - unfold whole_at. repeat split; try (vm_compute; reflexivity);
      try exact I; vm_compute; discriminate.
  - lia.
  - simpl. lia.
Defined.

(** X10.  A negative count is not refused: with [j >= 0] whole tokens
    and no time passed, [AllowN n] for [n < 0] answers [true] and stores [j - n]
    tokens, more than before, and more than the burst when [j - n]
    is above it. *)
Theorem AllowN_negative_count_adds_tokens {C : Type} `{Clock C}
    (rl : RateLimiter C) (j n : Z) :
  whole_at rl j (Now (clock rl)) -> 0 <= j -> n < 0 -> small (j - n) ->
  AllowN rl n = (true, restamped rl (of_int (j - n)) (Now (clock rl)))
  /\ ltb (tokens rl) (tokens (snd (AllowN rl n))) = true
  /\ (maxTokens rl < j - n ->
      gtb (tokens (snd (AllowN rl n))) (of_int (maxTokens rl)) = true).
Proof.
  intros Hw Hj0 Hn Hd. pose proof Hw as (Htok & Hj & Hjb & Hb & _).
  assert (Hsn : small n) by (unfold small in *; lia).
  rewrite (AllowN_whole_enough rl j n Hw Hsn Hd) by lia.
  split; [reflexivity|]. simpl. split.
  - rewrite Htok, (ltb_of_int _ _ Hj Hd). apply Z.ltb_lt. lia.
  - intros Habove. unfold gtb. rewrite (ltb_of_int _ _ Hb Hd).
    apply Z.ltb_lt. exact Habove.
Qed.

Lemma AllowN_negative_count_adds_tokens_witness :
  AllowN full5 (-3) = (true, restamped full5 (of_int 8) (Unix 0 0))
  /\ gtb (tokens (snd (AllowN full5 (-3)))) (of_int (maxTokens full5)) = true.
Proof.
  destruct (AllowN_negative_count_adds_tokens full5 5 (-3)) as (Ha & _ & Hb).
  - unfold whole_at. repeat split; try (vm_compute; reflexivity);
      try exact I; vm_compute; discriminate.
  - lia.
  - lia.
  - vm_compute. split; reflexivity.
  - split; [rewrite Ha; vm_compute; reflexivity|]. apply Hb. simpl. lia.
Defined.

(** X11.  With [j >= 0] whole tokens, no time passed and [j < n] within
    the burst, [AllowN n] answers [true] exactly when the duration of the
    [n - j] missing tokens, cut to whole nanoseconds, is not positive;
    when it is positive the answer is [false] and the limiter stays as
    it was. *)
Theorem AllowN_short_of_tokens {C : Type} `{Clock C} (rl : RateLimiter C) (j n : Z) :
  whole_at rl j (Now (clock rl)) -> 0 <= j < n -> n <= maxTokens rl ->
  fst (AllowN rl n) = (durationFromTokens (rate rl) (of_int (n - j)) <=? 0)
  /\ (0 < durationFromTokens (rate rl) (of_int (n - j)) -> AllowN rl n = (false, rl)).
Proof.
  intros Hw [Hj0 Hlt] Hnb. pose proof Hw as (_ & Hj & Hjb & Hb & _ & Hr & _).
  assert (Hsn : small n) by (unfold small in *; lia).
  assert (Hd : small (j - n)) by (unfold small in *; lia).
  pose proof (wait_for_whole_short rl j _ n Hw Hsn Hd Hlt) as Hwait.
  assert (Hok : r_ok (fst (reserve rl (Now (clock rl)) n 0))
                = (durationFromTokens (rate rl) (of_int (n - j)) <=? 0)).
  { rewrite (reserve_ok_finite rl _ n 0 Hr), Hwait.
    replace (n <=? maxTokens rl) with true by (symmetry; apply Z.leb_le; lia).
    reflexivity. }
  split.
  - unfold AllowN. destruct (reserve rl (Now (clock rl)) n 0). exact Hok.
  - intros Hpos.
    replace (_ <=? 0) with false in Hok by (symmetry; apply Z.leb_gt; lia).
    unfold AllowN. rewrite (reserve_refused rl _ n 0 Hok). reflexivity.
Qed.

Lemma AllowN_short_of_tokens_witness :
  AllowN (restamped full5 (of_int 2) (Unix 0 0)) 3
  = (false, restamped full5 (of_int 2) (Unix 0 0)).
Proof.
  destruct (AllowN_short_of_tokens (restamped full5 (of_int 2) (Unix 0 0)) 2 3)
    as (_ & Href).
  - unfold whole_at. repeat split; try (vm_compute; reflexivity);
      try exact I; vm_compute; discriminate.
  - lia.
  - simpl. lia.
  - apply Href. vm_compute. reflexivity.
Defined.

Section WholeRuns.

Context {C : Type} `{Clock C}.

Lemma Allow_whole_empty (rl : RateLimiter C) :
  whole_at rl 0 (Now (clock rl)) ->
  0 < durationFromTokens (rate rl) (of_int 1) ->
  Allow rl = (false, rl).
Proof.
  intros Hw Hpos. pose proof Hw as (_ & Hj & _ & _ & _ & Hr & _).
  assert (H1 : small 1) by (unfold small; split; reflexivity).
  assert (Hm : small (0 - 1)) by (unfold small; split; reflexivity).
  pose proof (wait_for_whole_short rl 0 _ 1 Hw H1 Hm ltac:(lia)) as Hwait.
  change (1 - 0) with 1 in Hwait.
  assert (Hok : r_ok (fst (reserve rl (Now (clock rl)) 1 0)) = false).
  { rewrite (reserve_ok_finite rl _ 1 0 Hr), Hwait.
    apply andb_false_iff. right. apply Z.leb_gt. exact Hpos. }
  unfold Allow, AllowN. rewrite (reserve_refused rl _ 1 0 Hok). reflexivity.
Qed.

Lemma allows_whole (k : nat) :
  forall (rl : RateLimiter C),
    whole_at rl (Z.of_nat k) (Now (clock rl)) ->
    0 < durationFromTokens (rate rl) (of_int 1) ->
    fst (allows (S k) rl) = repeat true k ++ [false].
Proof.
  induction k as [|k IH]; intros rl Hw Hpos.
  - simpl. rewrite (Allow_whole_empty rl Hw Hpos). reflexivity.
  - pose proof Hw as (_ & Hj & Hjb & Hb & _).
    assert (Hstep : Allow rl
                    = (true, restamped rl (of_int (Z.of_nat k)) (Now (clock rl)))).
    { unfold Allow.
      rewrite (AllowN_whole_enough rl (Z.of_nat (S k)) 1 Hw);
        try (unfold small in *; lia).
      do 3 f_equal. lia. }
    change (allows (S (S k)) rl)
      with (let (a, rl1) := Allow rl in
            let (l, rl2) := allows (S k) rl1 in (a :: l, rl2)).
    rewrite Hstep.
    assert (Hw' : whole_at (restamped rl (of_int (Z.of_nat k)) (Now (clock rl)))
                           (Z.of_nat k) (Now (clock rl))).
    { apply (restamped_whole rl (Z.of_nat (S k))); [exact Hw | |];
        unfold small in *; lia. }
    specialize (IH _ Hw' Hpos).
    destruct (allows (S k) _) as [l rl2]. simpl in IH. simpl. rewrite IH.
    reflexivity.
Qed.

Lemma New_whole (r : Rate) (burst : Z) (clk : C) :
  finite r -> eqb r InfiniteRate = false -> 0 <= burst < 2 ^ 53 ->
  whole_at (New r burst clk) burst (Now clk).
Proof.
  intros Hf Hr Hb. unfold whole_at, small. simpl.
  repeat split; try assumption; lia.
Qed.

(** Giving back [n] whole tokens at [t], when [eventAt] is [t] and the
    tokens take some time at the reservation's rate. *)
Lemma CancelAt_whole (rl : RateLimiter C) (j : Z) (t : Time) (n : Z) :
  whole_at rl j t -> eventAt rl = t -> 0 < n -> small n -> j + n <= maxTokens rl ->
  durationFromTokens (rate rl) (of_int (- n)) < 0 ->
  CancelAt (mkReservation true n t (rate rl)) rl t = restamped rl (of_int (j + n)) t.
Proof.
  intros Hw He Hn Hsn Hsum Hdur.
  pose proof Hw as (Htok & Hj & Hjb & Hb & Hf & Hr & Ht).
  set (r := mkReservation true n t (rate rl)).
  assert (Hrest : restore_of r rl = of_int n).
  { unfold restore_of. simpl. rewrite He, Sub_diag, (tokensFromDuration_0 _ Hf).
    apply sub_zero_r. }
  assert (Hg : cancel_is_noop r rl t = false).
  { unfold cancel_is_noop. rewrite Hrest, Hr. simpl. unfold Before.
    change zero with (of_int 0). rewrite (leb_of_int _ _ Hsn small_0).
    replace (n =? 0) with false by (symmetry; apply Z.eqb_neq; lia).
    replace (t <? t) with false by (symmetry; apply Z.ltb_irrefl).
    replace (n <=? 0) with false by (symmetry; apply Z.leb_gt; lia).
    reflexivity. }
  rewrite (CancelAt_commit r rl t Hg). unfold restamped. f_equal.
  - unfold restored_balance. rewrite Hrest, (updateTokens_whole rl j t Hw).
    rewrite (add_exact j n Hj Hsn) by (unfold small in *; lia).
    unfold gtb. rewrite ltb_of_int by (unfold small in *; lia).
    replace (maxTokens rl <? j + n) with false by (symmetry; apply Z.ltb_ge; lia).
    reflexivity.
  - unfold previous_event, int_neg, Before, Add. simpl.
    replace (n =? MinInt64) with false
      by (symmetry; apply Z.eqb_neq; unfold MinInt64; lia).
    replace (t + durationFromTokens (rate rl) (of_int (- n)) <? t) with true
      by (symmetry; apply Z.ltb_lt; lia).
    rewrite andb_false_r. exact He.
Qed.

End WholeRuns.

(** X12.  A limiter just made with burst [B], at a finite rate that makes
    less than a token per nanosecond (a missing token takes a wait of at
    least 1 ns), allows exactly [B] calls of [Allow] at the instant of
    its making: [B] times [true], then [false]. *)
Theorem exactly_burst_allows {C : Type} `{Clock C} (r : Rate) (B : Z) (clk : C) :
  finite r -> eqb r InfiniteRate = false -> 0 <= B < 2 ^ 53 ->
  0 < durationFromTokens r (of_int 1) ->
  fst (allows (S (Z.to_nat B)) (New r B clk)) = repeat true (Z.to_nat B) ++ [false].
Proof.
  intros Hf Hr HB Hpos. apply allows_whole; [|exact Hpos].
  rewrite Z2Nat.id by lia. apply New_whole; assumption.
Qed.

Lemma exactly_burst_allows_witness :
  fst (allows 3 (New (Every (100 * Millisecond)) 2 start)) = [true; true; false].
Proof.
  apply (exactly_burst_allows (Every (100 * Millisecond)) 2 start).
  - vm_compute. exact I.
  - vm_compute. reflexivity.
  - split; [lia | reflexivity].
  - vm_compute. reflexivity.
Defined.

(** X13.  With [j] whole tokens and no time passed, reserving [n > 0]
    tokens and cancelling at the same instant, before any other call,
    brings the balance back to exactly [j], whether the reservation had
    to wait or not (its [timeToAct] being not before the instant). *)
Theorem reserve_then_cancel_restores {C : Type} `{Clock C}
    (rl : RateLimiter C) (j : Z) (t : Time) (n : Z) (maxWait : Duration) :
  whole_at rl j t -> 0 < n -> small (j - n) ->
  r_ok (fst (reserve rl t n maxWait)) = true ->
  t <= r_timeToAct (fst (reserve rl t n maxWait)) ->
  let rl' := CancelAt (fst (reserve rl t n maxWait)) (snd (reserve rl t n maxWait)) t in
  tokens rl' = tokens rl /\ updatedAt rl' = t
  /\ rate rl' = rate rl /\ maxTokens rl' = maxTokens rl.
Proof.
  intros Hw Hn Hd Hok Htta.
  pose proof Hw as (Htok & Hj & Hjb & Hb & Hf & Hr & Ht).
  assert (Hnb : n <= maxTokens rl).
  { rewrite (reserve_ok_finite rl t n maxWait Hr) in Hok.
    apply andb_true_iff in Hok. destruct Hok as [Hok _].
    apply Z.leb_le in Hok. exact Hok. }
  assert (Hsn : small n) by (unfold small in *; lia).
  rewrite (reserve_granted_finite rl t n maxWait Hr Hok) in *.
  simpl fst in *. simpl snd. simpl r_timeToAct in Htta.
  set (r := mkReservation true n (Add t (wait_for rl t n)) (rate rl)).
  fold (committed rl t n).
  assert (Hw1 : whole_at (committed rl t n) (j - n) t).
  { unfold whole_at. simpl. rewrite (balance_after_whole rl j t n Hw Hsn Hd).
    repeat split; try assumption; try apply Hd; try apply Hb; lia. }
  assert (Hrest : restore_of r (committed rl t n) = of_int n).
  { unfold restore_of. simpl. rewrite Sub_diag, (tokensFromDuration_0 _ Hf).
    apply sub_zero_r. }
  assert (Hg : cancel_is_noop r (committed rl t n) t = false).
  { unfold cancel_is_noop. rewrite Hrest. simpl. rewrite Hr. unfold Before.
    change zero with (of_int 0). rewrite (leb_of_int _ _ Hsn small_0).
    replace (n =? 0) with false by (symmetry; apply Z.eqb_neq; lia).
    replace (Add t (wait_for rl t n) <? t) with false
      by (symmetry; apply Z.ltb_ge; exact Htta).
    replace (n <=? 0) with false by (symmetry; apply Z.leb_gt; lia).
    reflexivity. }
  intros rl'. subst rl'. rewrite (CancelAt_commit r _ t Hg). simpl.
  repeat split.
  unfold restored_balance. rewrite Hrest, (updateTokens_whole _ _ t Hw1). simpl.
  rewrite (add_exact (j - n) n Hd Hsn) by (replace (j - n + n) with j by lia; exact Hj).
  replace (j - n + n) with j by lia.
  unfold gtb. rewrite (ltb_of_int _ _ Hb Hj).
  replace (maxTokens rl <? j) with false by (symmetry; apply Z.ltb_ge; lia).
  symmetry. exact Htok.
Qed.

Lemma reserve_then_cancel_restores_witness :
  tokens (CancelAt late_reservation indebted (Unix 0 0)) = tokens drained.
Proof.
  destruct (reserve_then_cancel_restores drained 0 (Unix 0 0) 1 InfiniteDuration)
    as (Htok & _).
  - unfold whole_at. repeat split; try (vm_compute; reflexivity);
      try exact I; vm_compute; discriminate.
  - lia.
  - vm_compute. split; reflexivity.
  - vm_compute. reflexivity.
  - vm_compute. discriminate.
  - exact Htok.
Defined.

(** X14.  A reservation carries no mark of having been cancelled: with
    [j] whole tokens, a reservation of [n <= j] tokens granted at once
    and then cancelled twice at that instant leaves [j + n] tokens, [n]
    more than there were (here within the burst, and at a rate at which
    [n] tokens take some time). *)
Theorem cancelling_twice_refunds_twice {C : Type} `{Clock C}
    (rl : RateLimiter C) (j : Z) (t : Time) (n : Z) (maxWait : Duration) :
  whole_at rl j t -> 0 < n <= j -> j + n <= maxTokens rl -> 0 <= maxWait ->
  durationFromTokens (rate rl) (of_int (- n)) < 0 ->
  let r := fst (reserve rl t n maxWait) in
  let rl1 := snd (reserve rl t n maxWait) in
  r_ok r = true
  /\ tokens rl1 = of_int (j - n)
  /\ CancelAt r rl1 t = restamped rl (of_int j) t
  /\ CancelAt r (CancelAt r rl1 t) t = restamped rl (of_int (j + n)) t.
Proof.
  intros Hw Hn Hsum Hm Hdur.
  pose proof Hw as (Htok & Hj & Hjb & Hb & Hf & Hr & Ht).
  assert (Hsn : small n) by (unfold small in *; lia).
  assert (Hd : small (j - n)) by (unfold small in *; lia).
  rewrite (reserve_whole_enough rl j t n maxWait Hw Hsn Hd) by lia.
  simpl. split; [reflexivity|]. split; [reflexivity|].
  assert (Hw1 : whole_at (restamped rl (of_int (j - n)) t) (j - n) t).
  { apply (restamped_whole rl j); [exact Hw | exact Hd | lia]. }
  assert (Hw2 : whole_at (restamped rl (of_int j) t) j t).
  { apply (restamped_whole rl j); [exact Hw | exact Hj | lia]. }
  pose proof (CancelAt_whole _ (j - n) t n Hw1 eq_refl ltac:(lia) Hsn
                ltac:(simpl; lia) Hdur) as H1.
  pose proof (CancelAt_whole _ j t n Hw2 eq_refl ltac:(lia) Hsn
                ltac:(simpl; lia) Hdur) as H2.
  simpl in H1, H2. unfold restamped in *. simpl in *.
  replace (j - n + n) with j in H1 by lia.
  rewrite H1. split; [reflexivity|]. exact H2.
Qed.

Lemma cancelling_twice_refunds_twice_witness :
  CancelAt (fst (reserve (restamped full5 (of_int 2) (Unix 0 0)) (Unix 0 0) 1 0))
    (CancelAt (fst (reserve (restamped full5 (of_int 2) (Unix 0 0)) (Unix 0 0) 1 0))
       (snd (reserve (restamped full5 (of_int 2) (Unix 0 0)) (Unix 0 0) 1 0))
       (Unix 0 0))
    (Unix 0 0)
  = restamped full5 (of_int 3) (Unix 0 0).
Proof.
  destruct (cancelling_twice_refunds_twice
              (restamped full5 (of_int 2) (Unix 0 0)) 2 (Unix 0 0) 1 0)
    as (_ & _ & _ & Htwice).
  - unfold whole_at. repeat split; try (vm_compute; reflexivity);
      try exact I; vm_compute; discriminate.
  - lia.
  - simpl. lia.
  - lia.
  - vm_compute. reflexivity.
  - exact Htwice.
Defined.

(** ** A change of rate at one instant *)

Section RateChange.

Context {C : Type} `{Clock C}.

(** The balance just folded forward reads the same again at its instant,
    whatever finite rate is then in effect. *)
Lemma projection_reads_back (rl : RateLimiter C) (t : Time) (r : Rate) (e : Time) :
  finite r -> updateTokens rl t <> S754_zero true ->
  updateTokens {| rate := r; maxTokens := maxTokens rl;
                  tokens := updateTokens rl t; updatedAt := t;
                  eventAt := e; clock := clock rl |} t
  = updateTokens rl t.
Proof.
  intros Hf Hz. rewrite updateTokens_at_once; simpl; try assumption; try lia.
  rewrite (updateTokens_not_above rl t). reflexivity.
Qed.

End RateChange.

(** X15.  A change of rate does not change the balance at its instant:
    after [SetRateAt t r], for a finite [r], the balance read at [t] is
    the one read at [t] before.  So [SetRate] to another finite rate and
    back, with no time passing, leaves [AvailableTokens] as it was (the
    value read not being the negative zero, which an addition of zero
    would turn into zero). *)
Theorem SetRateAt_keeps_balance {C : Type} `{Clock C}
    (rl : RateLimiter C) (t : Time) (r : Rate) :
  finite r -> finite (rate rl) -> fst (tokensAt rl t) <> S754_zero true ->
  fst (tokensAt (SetRateAt rl t r) t) = fst (tokensAt rl t)
  /\ fst (tokensAt (SetRateAt (SetRateAt rl t r) t (rate rl)) t) = fst (tokensAt rl t)
  /\ (t = Now (clock rl) ->
      fst (AvailableTokens (SetRate (SetRate rl r) (rate rl)))
      = fst (AvailableTokens rl)).
Proof.
  intros Hr Hr0 Hz. simpl in Hz.
  assert (H1 : updateTokens (SetRateAt rl t r) t = updateTokens rl t).
  { unfold SetRateAt. apply projection_reads_back; assumption. }
  assert (H2 : updateTokens (SetRateAt (SetRateAt rl t r) t (rate rl)) t
               = updateTokens rl t).
  { unfold SetRateAt at 1. simpl. rewrite H1.
    pose proof (projection_reads_back rl t (rate rl) (eventAt rl) Hr0 Hz) as Hp.
    exact Hp. }
  split; [exact H1|]. split; [exact H2|].
  intros ->. unfold AvailableTokens, SetRate. simpl. exact H2.
Qed.

Lemma SetRateAt_keeps_balance_witness :
  fst (AvailableTokens (SetRate (SetRate idle (of_int 1000)) (rate idle)))
  = fst (AvailableTokens idle).
Proof.
  destruct (SetRateAt_keeps_balance idle (Now (clock idle)) (of_int 1000))
    as (_ & _ & Hback).
  - vm_compute. exact I.
  - vm_compute. exact I.
  - vm_compute. discriminate.
  - apply Hback. reflexivity.
Defined.

(** X16.  With [j] whole tokens and no time passed, [Wait n] for
    [0 <= n <= j] within the burst returns [nil] at once: it takes the
    [n] tokens and makes no call of [Sleep]. *)
Theorem Wait_with_tokens_returns_at_once {C : Type} `{Clock C}
    (rl : RateLimiter C) (j n : Z) :
  whole_at rl j (Now (clock rl)) -> 0 <= n <= j -> n <= maxTokens rl ->
  Wait rl n = (None, restamped rl (of_int (j - n)) (Now (clock rl))).
Proof.
  intros Hw Hn Hnb. pose proof Hw as (_ & Hj & _ & _ & _ & Hr & _).
  assert (Hsn : small n) by (unfold small in *; lia).
  assert (Hd : small (j - n)) by (unfold small in *; lia).
  rewrite (Wait_within_burst rl n Hr Hnb). cbv zeta.
  rewrite (wait_for_whole_enough rl j _ n Hw Hsn Hd) by lia.
  unfold sleep_if_positive, committed, restamped. simpl.
  rewrite (wait_for_whole_enough rl j _ n Hw Hsn Hd) by lia.
  rewrite (balance_after_whole rl j _ n Hw Hsn Hd).
  unfold Add. rewrite Z.add_0_r. reflexivity.
Qed.

Lemma Wait_with_tokens_returns_at_once_witness :
  Wait full5 2 = (None, restamped full5 (of_int 3) (Unix 0 0)).
Proof.
  rewrite (Wait_with_tokens_returns_at_once full5 5 2).
  - vm_compute. reflexivity.
  - unfold whole_at. repeat split; try (vm_compute; reflexivity);
      try exact I; vm_compute; discriminate.
  - lia.
  - simpl. lia.
Defined.

(** X17.  With [j >= 0] whole tokens, no time passed and [j < n] within
    the burst, [Wait n] returns [nil] with a debt recorded: the balance
    becomes [j - n], below zero, [eventAt] is the present instant plus
    the duration of the [n - j] missing tokens, and [Sleep] is called
    for that duration when it is positive. *)
Theorem Wait_short_records_debt {C : Type} `{Clock C} (rl : RateLimiter C) (j n : Z) :
  whole_at rl j (Now (clock rl)) -> 0 <= j < n -> n <= maxTokens rl ->
  let t := Now (clock rl) in
  let d := durationFromTokens (rate rl) (of_int (n - j)) in
  Wait rl n =
    (None,
     sleep_if_positive
       {| rate := rate rl; maxTokens := maxTokens rl; tokens := of_int (j - n);
          updatedAt := t; eventAt := t + d; clock := clock rl |} d)
  /\ ltb (of_int (j - n)) zero = true.
Proof.
  intros Hw [Hj0 Hlt] Hnb t d. pose proof Hw as (_ & Hj & _ & Hb & _ & Hr & _).
  assert (Hsn : small n) by (unfold small in *; lia).
  assert (Hd : small (j - n)) by (unfold small in *; lia).
  split.
  - rewrite (Wait_within_burst rl n Hr Hnb). cbv zeta. fold t.
    unfold committed.
    rewrite (wait_for_whole_short rl j t n Hw Hsn Hd Hlt).
    rewrite (balance_after_whole rl j t n Hw Hsn Hd). reflexivity.
  - change zero with (of_int 0). rewrite (ltb_of_int _ _ Hd small_0).
    apply Z.ltb_lt. lia.
Qed.

Lemma Wait_short_records_debt_witness :
  Wait drained 1
  = (None,
     advance {| rate := rate drained; maxTokens := 2; tokens := of_int (-1);
                updatedAt := Unix 0 0; eventAt := Unix 0 100000000;
                clock := clock drained |} (100 * Millisecond)).
Proof.
  destruct (Wait_short_records_debt drained 0 1) as (Hwait & _).
  - unfold whole_at. repeat split; try (vm_compute; reflexivity);
      try exact I; vm_compute; discriminate.
  - lia.
  - simpl. lia.
  - rewrite Hwait. vm_compute. reflexivity.
Defined.

(** ** A change of burst at one instant *)

(** X18.  With [j] whole tokens and no time passed, [SetBurstAt t b]
    keeps the balance when the new burst is at least [j] and clips it to
    the new burst at once when it is below; either way [updatedAt] and
    [eventAt] become [t] and the rate stays. *)
Theorem SetBurstAt_clips_at_once {C : Type} `{Clock C}
    (rl : RateLimiter C) (j : Z) (t : Time) (b : Z) :
  whole_at rl j t -> small b ->
  SetBurstAt rl t b =
    {| rate := rate rl; maxTokens := b; tokens := of_int (Z.min j b);
       updatedAt := t; eventAt := t; clock := clock rl |}.
Proof.
  intros (Htok & Hj & _ & _ & Hf & _ & Ht) Hb.
  unfold SetBurstAt. cbv zeta. f_equal.
  rewrite updateTokens_at_once; simpl; try assumption.
  - rewrite Htok. unfold gtb. rewrite (ltb_of_int _ _ Hb Hj).
    destruct (b <? j) eqn:Hlt.
    + apply Z.ltb_lt in Hlt. f_equal. lia.
    + apply Z.ltb_ge in Hlt. f_equal. lia.
  - rewrite Htok. apply of_int_plain, Hj.
Qed.

Lemma SetBurstAt_clips_at_once_witness :
  tokens (SetBurstAt full5 (Unix 0 0) 2) = of_int 2
  /\ tokens (SetBurstAt full5 (Unix 0 0) 9) = of_int 5.
Proof.
  split.
  - rewrite (SetBurstAt_clips_at_once full5 5 (Unix 0 0) 2).
    + reflexivity.
    + unfold whole_at. repeat split; try (vm_compute; reflexivity);
        try exact I; vm_compute; discriminate.
    + vm_compute. split; reflexivity.
  - rewrite (SetBurstAt_clips_at_once full5 5 (Unix 0 0) 9).
    + reflexivity.
    + unfold whole_at. repeat split; try (vm_compute; reflexivity);
        try exact I; vm_compute; discriminate.
    + vm_compute. split; reflexivity.
Defined.

(** ** Configuration over a run *)

Section Runs.

Context {C : Type} `{Clock C}.

Lemma exec_config (c : Call) (rl : RateLimiter C) :
  (sets_rate c = false -> rate (exec c rl) = rate rl)
  /\ (sets_burst c = false -> maxTokens (exec c rl) = maxTokens rl).
Proof.
  destruct c as [n|n| |r|t r|b|t b|t n w|r t|r|d]; simpl;
    split; intros Hc; try discriminate; try reflexivity;
    try apply Wait_config; try apply reserve_config; try apply CancelAt_config.
  - unfold AllowN.
    pose proof (reserve_config rl (Now (clock rl)) n 0) as Hres.
    destruct (reserve rl (Now (clock rl)) n 0). simpl in *. apply Hres.
  - unfold AllowN.
    pose proof (reserve_config rl (Now (clock rl)) n 0) as Hres.
    destruct (reserve rl (Now (clock rl)) n 0). simpl in *. apply Hres.
Qed.

End Runs.

(** X7.  Over any sequence of calls with no rate setter in it the rate
    at the end is the rate at the start, and likewise the burst over any
    sequence with no burst setter: a limiter used only through [Allow],
    [AllowN], [Wait], reads, reservations and cancellations keeps the
    configuration it was made with. *)
Theorem run_keeps_configuration {C : Type} `{Clock C}
    (cs : list Call) (rl : RateLimiter C) :
  (forallb (fun c => negb (sets_rate c)) cs = true -> rate (run cs rl) = rate rl)
  /\ (forallb (fun c => negb (sets_burst c)) cs = true ->
      maxTokens (run cs rl) = maxTokens rl).
Proof.
  revert rl. induction cs as [|c cs IH]; intros rl; simpl.
  - split; reflexivity.
  - destruct (IH (exec c rl)) as [IHr IHb].
    destruct (exec_config c rl) as [Hr Hb].
    split; intros Hall; apply andb_true_iff in Hall; destruct Hall as [Hc Hcs].
    + unfold run in *. simpl. rewrite (IHr Hcs). apply Hr.
      apply negb_true_iff. exact Hc.
    + unfold run in *. simpl. rewrite (IHb Hcs). apply Hb.
      apply negb_true_iff. exact Hc.
Qed.

Lemma run_keeps_configuration_witness :
  rate (run [CallAllowN 1; CallWait 2; ClockSleep Second; CallSetBurst 7] full5)
  = rate full5.
Proof.
  apply (proj1 (run_keeps_configuration
                  [CallAllowN 1; CallWait 2; ClockSleep Second; CallSetBurst 7] full5)).
  reflexivity.
Defined.
